(** * SmartSense: the sensor-network runtime, embedded and verified

    A shallow embedding of [smartsense/core/monitor.py] (the [SensorNetwork]
    class: sensor and alert registration, the polling loop, alert evaluation)
    and of the parts of [smartsense/api/routes.py] that call into it (reading
    queries, alert creation and deletion).

    Conventions of the embedding:
    - Python [float]s (and [int]s used as numbers) are exact rationals [Q];
      rounding, infinities and NaN are outside the model.
    - A [datetime] is a number of microseconds on the time line ([Z]);
      [timedelta.total_seconds()] divides by 10^6.
    - Python [dict]s are [gmap]s, Python [list]s are [list]s.
    - Methods that mutate [self], read the clock, log, or raise are
      computations in the monad [M]: a state transformer that returns either a
      value or a raised exception and keeps the state reached when it raises.
    - A reading is its fields; what a reading object inherits from its class
      (methods) is not modelled.
    - Alert callbacks and [sensor.read()] belong to external collaborators:
      a callback is represented by its outcome (returns or raises an
      [Exception]) and leaves a [Called] event in the trace; the outcome of a
      read is an input of the polling cycle. *)

From Stdlib Require Import QArith Qabs ZArith Lia Lqa.
From stdpp Require Import base option list strings gmap pretty.

Local Open Scope Z_scope.
Local Open Scope string_scope.

(* ===================================================================== *)
(** ** Python values, exceptions and sequence slicing                     *)
(* ===================================================================== *)

(** [datetime]: microseconds since an epoch. *)
Definition datetime : Type := Z.

(** [(later - earlier).total_seconds()] *)
Definition total_seconds (delta : Z) : Q := Qmake delta 1000000.

(** [x < y] on numbers, as a boolean. *)
Definition Qlt_bool (x y : Q) : bool := negb (Qle_bool y x).

(** Instances of [Exception] raised or caught by the modelled code. *)
Inductive exn : Type :=
  | ValueError (msg : string)
  | TypeError
  | KeyError (key : string)
  | HTTPException (status_code : Z) (detail : string)
  | OtherException (what : string).

Inductive result (A : Type) : Type :=
  | Ok (a : A)
  | Raise (e : exn).
Arguments Ok {A} a.
Arguments Raise {A} e.

(** What [getattr(reading, field)] can give: a number, a string ([unit],
    [sensor_id]), the [timestamp], or some other object kept in an extra
    field, which supports no arithmetic or ordering with numbers. *)
Inductive pyval : Type :=
  | PFloat (x : Q)
  | PStr (s : string)
  | PDatetime (t : datetime)
  | PObject.

(** [AlertCondition.value : Union[float, List[float]]] *)
Inductive threshold : Type :=
  | TFloat (x : Q)
  | TList (xs : list Q).

(** [value > threshold]; operands other than two numbers raise [TypeError]. *)
Definition py_gt (value : pyval) (t : threshold) : result bool :=
  match value, t with
  | PFloat v, TFloat x => Ok (Qlt_bool x v)
  | _, _ => Raise TypeError
  end.

(** [value < threshold] *)
Definition py_lt (value : pyval) (t : threshold) : result bool :=
  match value, t with
  | PFloat v, TFloat x => Ok (Qlt_bool v x)
  | _, _ => Raise TypeError
  end.

(** [abs(value - threshold)] *)
Definition py_abs_diff (value : pyval) (t : threshold) : result Q :=
  match value, t with
  | PFloat v, TFloat x => Ok (Qabs (v - x))
  | _, _ => Raise TypeError
  end.

(** [lo <= value <= hi] for numbers [lo], [hi]: the chained comparison
    evaluates [lo <= value] first, which raises for a non-number. *)
Definition py_chain_le (lo : Q) (value : pyval) (hi : Q) : result bool :=
  match value with
  | PFloat v => Ok (Qle_bool lo v && Qle_bool v hi)
  | _ => Raise TypeError
  end.

(** [xs[start:]] for any integer [start] (negative counts from the end,
    out-of-range bounds are clipped). *)
Definition py_slice_from {A : Type} (xs : list A) (start : Z) : list A :=
  let len := Z.of_nat (length xs) in
  let lower := if Z.ltb start 0 then Z.max (len + start) 0 else Z.min start len in
  drop (Z.to_nat lower) xs.

(* ===================================================================== *)
(** ** sensors/base.py: readings and sensor descriptors                   *)
(* ===================================================================== *)

(** [SensorReading] and its subclasses: the two base fields, and every other
    attribute ([temperature], [unit], extra fields, ...) by name. *)
Record SensorReading : Type := {
  timestamp : datetime;
  reading_sensor_id : string;
  reading_attrs : gmap string pyval
}.

(** [hasattr(reading, field)] and [getattr(reading, field)] in one lookup. *)
Definition getattr (reading : SensorReading) (field : string) : option pyval :=
  if decide (field = "timestamp") then Some (PDatetime (timestamp reading))
  else if decide (field = "sensor_id") then Some (PStr (reading_sensor_id reading))
  else reading_attrs reading !! field.

(** The data of a [Sensor] object ([get_metadata]). *)
Record Sensor : Type := {
  sensor_id : string;
  sensor_name : string;
  sensor_type : string;
  sensor_update_interval : Q;
  pin : option Z;
  last_read_time : option Q
}.

(* ===================================================================== *)
(** ** core/monitor.py: data model                                        *)
(* ===================================================================== *)

(** Records written by the [logger] calls, one constructor per call site. *)
Inductive log_record : Type :=
  | SensorReplaced (id : string)                          (* warning *)
  | SensorAdded (id : string)                             (* info *)
  | SensorRemoved (id : string)                           (* info *)
  | SensorNotRemoved (id : string)                        (* warning *)
  | AlertCreated (name : string)                          (* info *)
  | FieldNotFound (field sensor : string)                 (* warning *)
  | ActionExecuted (action alert : string)                (* info *)
  | ActionError (action : string) (e : exn)               (* error *)
  | AlertTriggered (alert field : string) (value : pyval) (* warning *)
  | AlertCleared (alert field : string) (value : pyval)   (* info *)
  | ReadingsCollected (count : nat) (sensor : string)     (* info *)
  | NewReading (sensor : string)                          (* debug *)
  | PollError (sensor : string) (e : exn).                (* error *)

(** Observable effects, in the order they happen. *)
Inductive event : Type :=
  | Logged (r : log_record)
  | Called (action : string)
  | Slept (seconds : Q).

(** A callback, given what has happened so far, returns ([None]) or raises. *)
Definition Callable : Type := list event -> option exn.

Record AlertAction : Type := {
  action_name : string;
  callback : Callable
}.

Record AlertCondition : Type := {
  cond_sensor_id : string;
  field : string;
  operator : string;
  value : threshold;
  comparison_buffer : Q
}.

Record Alert : Type := {
  alert_id : string;
  alert_name : string;
  condition : AlertCondition;
  actions : list AlertAction;
  triggered : bool;
  last_triggered : option datetime;
  cooldown : Z
}.

Definition set_triggered (b : bool) (a : Alert) : Alert :=
  {| alert_id := alert_id a; alert_name := alert_name a; condition := condition a;
     actions := actions a; triggered := b; last_triggered := last_triggered a;
     cooldown := cooldown a |}.

Definition set_last_triggered (t : datetime) (a : Alert) : Alert :=
  {| alert_id := alert_id a; alert_name := alert_name a; condition := condition a;
     actions := actions a; triggered := triggered a; last_triggered := Some t;
     cooldown := cooldown a |}.

(** The fields of a [SensorNetwork] instance (the event loop and task set of
    asyncio are not data of the model). *)
Record SensorNetwork : Type := {
  net_name : string;
  update_interval : Q;
  sensors : gmap string Sensor;
  readings : gmap string (list SensorReading);
  alerts : list Alert;
  running : bool
}.

Definition set_sensors (m : gmap string Sensor) (self : SensorNetwork) : SensorNetwork :=
  {| net_name := net_name self; update_interval := update_interval self;
     sensors := m; readings := readings self; alerts := alerts self;
     running := running self |}.

Definition set_readings (m : gmap string (list SensorReading)) (self : SensorNetwork)
  : SensorNetwork :=
  {| net_name := net_name self; update_interval := update_interval self;
     sensors := sensors self; readings := m; alerts := alerts self;
     running := running self |}.

Definition set_alerts (l : list Alert) (self : SensorNetwork) : SensorNetwork :=
  {| net_name := net_name self; update_interval := update_interval self;
     sensors := sensors self; readings := readings self; alerts := l;
     running := running self |}.

(** [SensorNetwork.__init__] *)
Definition new_network (name : string) (interval : Q) : SensorNetwork :=
  {| net_name := name; update_interval := interval; sensors := ∅; readings := ∅;
     alerts := []; running := false |}.

(* ===================================================================== *)
(** ** The monad of the runtime                                           *)
(* ===================================================================== *)

(** The network object, the wall clock ([clock n] is what the [n]-th call of
    [datetime.now()] returns) and the trace of effects so far. *)
Record State : Type := {
  net : SensorNetwork;
  clock : nat -> datetime;
  ticks : nat;
  trace : list event
}.

Definition M (A : Type) : Type := State -> State * result A.

Definition ret {A : Type} (a : A) : M A := fun st => (st, Ok a).

Definition bind {A B : Type} (m : M A) (k : A -> M B) : M B :=
  fun st =>
    match m st with
    | (st', Ok a) => k a st'
    | (st', Raise e) => (st', Raise e)
    end.

Notation "'do' x <- m ; k" := (bind m (fun x => k))
  (at level 10, x name, m at level 100, k at level 200).
Notation "m ;; k" := (bind m (fun _ => k))
  (at level 100, k at level 200, right associativity).

(** [raise e] *)
Definition raise {A : Type} (e : exn) : M A := fun st => (st, Raise e).

(** [try: body / except Exception as e: handler(e)] *)
Definition try_except {A : Type} (body : M A) (handler : exn -> M A) : M A :=
  fun st =>
    match body st with
    | (st', Ok a) => (st', Ok a)
    | (st', Raise e) => handler e st'
    end.

(** Reading and writing [self]. *)
Definition get_self : M SensorNetwork := fun st => (st, Ok (net st)).

Definition update_self (f : SensorNetwork -> SensorNetwork) : M unit :=
  fun st =>
    ({| net := f (net st); clock := clock st; ticks := ticks st; trace := trace st |},
     Ok tt).

Definition emit (ev : event) : M unit :=
  fun st =>
    ({| net := net st; clock := clock st; ticks := ticks st;
        trace := trace st ++ [ev] |}, Ok tt).

Definition logger (r : log_record) : M unit := emit (Logged r).

(** [datetime.now()] *)
Definition datetime_now : M datetime :=
  fun st =>
    ({| net := net st; clock := clock st; ticks := S (ticks st); trace := trace st |},
     Ok (clock st (ticks st))).

(** [action.callback()] *)
Definition call (name : string) (f : Callable) : M unit :=
  fun st =>
    let st' := {| net := net st; clock := clock st; ticks := ticks st;
                  trace := trace st ++ [Called name] |} in
    match f (trace st) with
    | None => (st', Ok tt)
    | Some e => (st', Raise e)
    end.

(** An expression that may raise, evaluated inside a computation. *)
Definition eval {A : Type} (r : result A) : M A := fun st => (st, r).

(** [for x in xs: body(x)] *)
Fixpoint for_each {A : Type} (xs : list A) (body : A -> M unit) : M unit :=
  match xs with
  | [] => ret tt
  | x :: rest => body x ;; for_each rest body
  end.

(* ===================================================================== *)
(** ** core/monitor.py: [SensorNetwork] methods                           *)
(* ===================================================================== *)

(** [SensorNetwork.add_sensor] *)
Definition add_sensor (sensor : Sensor) : M unit :=
  do self <- get_self;
  do _ <- (if decide (is_Some (sensors self !! sensor_id sensor))
           then logger (SensorReplaced (sensor_id sensor))
           else ret tt);
  do _ <- update_self (fun self =>
            set_sensors (<[sensor_id sensor := sensor]> (sensors self)) self);
  do _ <- update_self (fun self =>
            set_readings (<[sensor_id sensor := []]> (readings self)) self);
  logger (SensorAdded (sensor_id sensor)).

(** [SensorNetwork.remove_sensor] *)
Definition remove_sensor (id : string) : M bool :=
  do self <- get_self;
  if decide (is_Some (sensors self !! id)) then
    do _ <- update_self (fun self => set_sensors (delete id (sensors self)) self);
    do _ <- update_self (fun self => set_readings (delete id (readings self)) self);
    do _ <- logger (SensorRemoved id);
    ret true
  else
    do _ <- logger (SensorNotRemoved id);
    ret false.

(** [SensorNetwork.add_alert] *)
Definition add_alert (id fld op : string) (val : threshold)
    (acts : list (string * Callable)) (name : option string) (cd : Z) : M string :=
  do self <- get_self;
  match sensors self !! id with
  | None => raise (ValueError ("Sensor with ID '" +:+ id +:+ "' does not exist"))
  | Some sensor =>
      let new_id := "alert_" +:+ pretty (length (alerts self) + 1)%nat in
      let new_name :=
        match name with
        | Some n => n
        | None => "Alert for " +:+ sensor_name sensor +:+ "." +:+ fld
        end in
      let alert_actions :=
        map (fun nc => {| action_name := fst nc; callback := snd nc |}) acts in
      let cond :=
        {| cond_sensor_id := id; field := fld; operator := op; value := val;
           comparison_buffer := 0 |} in
      let alert :=
        {| alert_id := new_id; alert_name := new_name; condition := cond;
           actions := alert_actions; triggered := false; last_triggered := None;
           cooldown := cd |} in
      do _ <- update_self (fun self => set_alerts (alerts self ++ [alert])%list self);
      do _ <- logger (AlertCreated new_name);
      ret new_id
  end.

(** The [if]/[elif] chain of [_process_alerts] that computes the local
    [triggered]: whether the alert's condition is met by the field's value. *)
Definition condition_met (c : AlertCondition) (v : pyval) : result bool :=
  if decide (operator c = "gt") then py_gt v (value c)
  else if decide (operator c = "lt") then py_lt v (value c)
  else if decide (operator c = "eq") then
    match py_abs_diff v (value c) with
    | Ok d => Ok (Qle_bool d (comparison_buffer c))
    | Raise e => Raise e
    end
  else if decide (operator c = "neq") then
    match py_abs_diff v (value c) with
    | Ok d => Ok (Qlt_bool (comparison_buffer c) d)
    | Raise e => Raise e
    end
  else if decide (operator c = "between") then
    match value c with
    | TList [lo; hi] => py_chain_le lo v hi
    | _ => Ok false
    end
  else Ok false.

(** [cooldown_ok] of [_process_alerts], computed from [now]. *)
Definition cooldown_ok (alert : Alert) (now : datetime) : bool :=
  match last_triggered alert with
  | Some last => Qlt_bool (inject_Z (cooldown alert)) (total_seconds (now - last))
  | None => true
  end.

(** Assignments to the attributes of the [i]-th alert object of [self.alerts]. *)
Definition store_alert (i : nat) (alert : Alert) : M unit :=
  update_self (fun self => set_alerts (<[i := alert]> (alerts self)) self).

(** The inner loop of [_process_alerts]: every action runs inside its own
    [try]/[except Exception]. *)
Definition execute_actions (alert : Alert) : M unit :=
  for_each (actions alert) (fun action =>
    try_except
      (do _ <- call (action_name action) (callback action);
       logger (ActionExecuted (action_name action) (alert_name alert)))
      (fun e => logger (ActionError (action_name action) e))).

(** The body of the loop of [_process_alerts] for the [i]-th alert. *)
Definition process_alert (id : string) (reading : SensorReading) (i : nat) : M unit :=
  do self <- get_self;
  match alerts self !! i with
  | None => ret tt
  | Some alert =>
      if decide (cond_sensor_id (condition alert) <> id) then ret tt
      else
        let fld := field (condition alert) in
        match getattr reading fld with
        | None => logger (FieldNotFound fld id)
        | Some v =>
            do met <- eval (condition_met (condition alert) v);
            do now <- datetime_now;
            let ok := cooldown_ok alert now in
            if met && negb (triggered alert) && ok then
              do _ <- store_alert i (set_last_triggered now (set_triggered true alert));
              do _ <- execute_actions alert;
              logger (AlertTriggered (alert_name alert) fld v)
            else if negb met && triggered alert then
              do _ <- store_alert i (set_triggered false alert);
              logger (AlertCleared (alert_name alert) fld v)
            else ret tt
        end
  end.

(** [SensorNetwork._process_alerts] *)
Definition process_alerts (id : string) (reading : SensorReading) : M unit :=
  do self <- get_self;
  for_each (seq 0 (length (alerts self))) (process_alert id reading).

(** What one [await sensor.read()] does: a reading, [None], or an exception. *)
Inductive read_outcome : Type :=
  | Reads (r : option SensorReading)
  | ReadRaises (e : exn).

Definition sensor_read (o : read_outcome) : M (option SensorReading) :=
  match o with
  | Reads r => ret r
  | ReadRaises e => raise e
  end.

(** [self.readings[id].append(reading)]: indexing a missing key raises. *)
Definition append_reading (id : string) (reading : SensorReading) : M unit :=
  do self <- get_self;
  match readings self !! id with
  | None => raise (KeyError id)
  | Some log =>
      update_self (fun self =>
        set_readings (<[id := (log ++ [reading])%list]> (readings self)) self)
  end.

(** One iteration of the [while] loop of [_poll_sensor]. *)
Definition poll_cycle (sensor : Sensor) (o : read_outcome) : M unit :=
  do _ <- try_except
    (do r <- sensor_read o;
     match r with
     | Some reading =>
         do _ <- append_reading (sensor_id sensor) reading;
         do _ <- process_alerts (sensor_id sensor) reading;
         do self <- get_self;
         match readings self !! sensor_id sensor with
         | None => raise (KeyError (sensor_id sensor))
         | Some log =>
             if Nat.eqb (length log mod 100) 0
             then logger (ReadingsCollected (length log) (sensor_name sensor))
             else logger (NewReading (sensor_name sensor))
         end
     | None => ret tt
     end)
    (fun e => logger (PollError (sensor_name sensor) e));
  emit (Slept (sensor_update_interval sensor)).

(** [SensorNetwork._poll_sensor]: the loop runs while [self.running]; the
    list gives the outcome of the read of each cycle the task gets to run. *)
Fixpoint poll_sensor (sensor : Sensor) (cycles : list read_outcome) : M unit :=
  match cycles with
  | [] => ret tt
  | o :: rest =>
      do self <- get_self;
      if running self then
        do _ <- poll_cycle sensor o;
        poll_sensor sensor rest
      else ret tt
  end.

(* ===================================================================== *)
(** ** api/routes.py: the routes that call into the network               *)
(* ===================================================================== *)

Record SensorReadingResponse : Type := {
  resp_sensor_id : string;
  resp_timestamp : datetime;
  resp_values : gmap string pyval
}.

Record SensorDataResponse : Type := {
  resp_sensor : Sensor;
  resp_readings : list SensorReadingResponse
}.

Record AlertResponse : Type := {
  ar_id : string;
  ar_name : string;
  ar_sensor_id : string;
  ar_field : string;
  ar_operator : string;
  ar_value : threshold;
  ar_triggered : bool;
  ar_last_triggered : option datetime
}.

Record CreateAlertRequest : Type := {
  req_sensor_id : string;
  req_field : string;
  req_operator : string;
  req_value : threshold;
  req_name : option string;
  req_cooldown : Z
}.

(** The conversion of one reading in [get_sensor_readings]:
    [reading.dict()] without the keys [timestamp] and [sensor_id]. *)
Definition reading_response (reading : SensorReading) : SensorReadingResponse :=
  {| resp_sensor_id := reading_sensor_id reading;
     resp_timestamp := timestamp reading;
     resp_values :=
       filter (fun kv : string * pyval => kv.1 ∉ ["timestamp"; "sensor_id"])
              (reading_attrs reading) |}.

(** The conversion of an alert in [list_alerts] and [create_alert]. *)
Definition alert_response (alert : Alert) : AlertResponse :=
  {| ar_id := alert_id alert; ar_name := alert_name alert;
     ar_sensor_id := cond_sensor_id (condition alert);
     ar_field := field (condition alert);
     ar_operator := operator (condition alert);
     ar_value := value (condition alert);
     ar_triggered := triggered alert;
     ar_last_triggered := last_triggered alert |}.

(** [limit: int = Query(10, ge=1, le=1000)]: the default when the parameter
    is absent, and the bounds the framework checks before the route runs
    (a violation is answered with status 422). *)
Definition default_limit : Z := 10.

Definition check_limit (limit : option Z) : M Z :=
  let k := default default_limit limit in
  if Z.leb 1 k && Z.leb k 1000 then ret k
  else raise (HTTPException 422 "limit: value out of range").

(** [get_sensor_readings] *)
Definition get_sensor_readings (id : string) (limit : option Z)
    (start_time end_time : option datetime) : M SensorDataResponse :=
  do k <- check_limit limit;
  do network <- get_self;
  match sensors network !! id with
  | None => raise (HTTPException 404 ("Sensor with ID '" +:+ id +:+ "' not found"))
  | Some sensor =>
      let rs := default [] (readings network !! id) in
      let rs :=
        match start_time with
        | Some t => filter (fun r => t <= timestamp r) rs
        | None => rs
        end in
      let rs :=
        match end_time with
        | Some t => filter (fun r => timestamp r <= t) rs
        | None => rs
        end in
      let rs := py_slice_from rs (- k) in
      ret {| resp_sensor := sensor; resp_readings := map reading_response rs |}
  end.

Definition valid_operators : list string := ["gt"; "lt"; "eq"; "neq"; "between"].

(** The placeholder action of [create_alert]: it logs and returns. *)
Definition log_alert_action : Callable := fun _ => None.

(** [create_alert] *)
Definition create_alert (req : CreateAlertRequest) : M AlertResponse :=
  do network <- get_self;
  if decide (sensors network !! req_sensor_id req = None) then
    raise (HTTPException 404
             ("Sensor with ID '" +:+ req_sensor_id req +:+ "' not found"))
  else if decide (req_operator req ∉ valid_operators) then
    raise (HTTPException 400
             ("Invalid operator: " +:+ req_operator req
              +:+ ". Must be one of ['gt', 'lt', 'eq', 'neq', 'between']"))
  else
    do new_id <- try_except
      (add_alert (req_sensor_id req) (req_field req) (req_operator req)
                 (req_value req) [("log", log_alert_action)] (req_name req)
                 (req_cooldown req))
      (fun e =>
         match e with
         | ValueError msg => raise (HTTPException 400 msg)
         | _ => raise e
         end);
    do network <- get_self;
    match list_find (fun a => alert_id a = new_id) (alerts network) with
    | Some (_, alert) => ret (alert_response alert)
    | None =>
        raise (HTTPException 500 "Alert was created but could not be retrieved")
    end.

(** [delete_alert] *)
Definition delete_alert (id : string) : M unit :=
  do network <- get_self;
  match list_find (fun a => alert_id a = id) (alerts network) with
  | Some (i, _) => update_self (fun self => set_alerts (delete i (alerts self)) self)
  | None => raise (HTTPException 404 ("Alert with ID '" +:+ id +:+ "' not found"))
  end.

(* ===================================================================== *)
(** ** Vocabulary of the statements                                       *)
(* ===================================================================== *)

(** The condition of an alert on sensor [sid] and field [fld], with buffer
    [b], for an operator and a threshold. *)
Definition cond_of (sid fld : string) (b : Q) (op : string) (thr : threshold)
  : AlertCondition :=
  {| cond_sensor_id := sid; field := fld; operator := op; value := thr;
     comparison_buffer := b |}.

(** [r] is a boolean, and it is [true] exactly when [P] holds. *)
Definition met_iff (r : result bool) (P : Prop) : Prop :=
  exists m : bool, r = Ok m /\ (m = true <-> P).

(** The names of the callbacks invoked in a trace, in order. *)
Fixpoint calls (evs : list event) : list string :=
  match evs with
  | [] => []
  | Called name :: rest => name :: calls rest
  | _ :: rest => calls rest
  end.

(** The events one run of [execute_actions] adds after the trace [before]. *)
Fixpoint action_events (alert : string) (acts : list AlertAction)
    (before : list event) : list event :=
  match acts with
  | [] => []
  | a :: rest =>
      let report :=
        match callback a before with
        | None => ActionExecuted (action_name a) alert
        | Some e => ActionError (action_name a) e
        end in
      let evs := [Called (action_name a); Logged report] in
      (evs ++ action_events alert rest (before ++ evs))%list
  end.

(** State updates, for the statements. *)
Definition with_trace (evs : list event) (st : State) : State :=
  {| net := net st; clock := clock st; ticks := ticks st; trace := evs |}.

Definition tick (st : State) : State :=
  {| net := net st; clock := clock st; ticks := S (ticks st); trace := trace st |}.

(** The state after the trigger branch of [process_alert] for alert [a] at
    index [i], on the value [v] of its field. *)
Definition after_trigger (i : nat) (a : Alert) (v : pyval) (st : State) : State :=
  let now := clock st (ticks st) in
  {| net := set_alerts
              (<[i := set_last_triggered now (set_triggered true a)]> (alerts (net st)))
              (net st);
     clock := clock st;
     ticks := S (ticks st);
     trace := (trace st
               ++ action_events (alert_name a) (actions a) (trace st)
               ++ [Logged (AlertTriggered (alert_name a) (field (condition a)) v)])%list |}.

(** The state after the clear branch. *)
Definition after_clear (i : nat) (a : Alert) (v : pyval) (st : State) : State :=
  {| net := set_alerts (<[i := set_triggered false a]> (alerts (net st))) (net st);
     clock := clock st;
     ticks := S (ticks st);
     trace := (trace st
               ++ [Logged (AlertCleared (alert_name a) (field (condition a)) v)])%list |}.

(** What alert evaluation never touches: the sensors, the reading store,
    the [running] flag and the number of alerts. *)
Definition same_store (st st' : State) : Prop :=
  sensors (net st') = sensors (net st)
  /\ readings (net st') = readings (net st)
  /\ running (net st') = running (net st)
  /\ length (alerts (net st')) = length (alerts (net st)).

(** The value an alert is evaluated on: the alert is on sensor [id] and the
    reading has its field. *)
Definition applicable (id : string) (reading : SensorReading) (a : Alert)
  : option pyval :=
  if decide (cond_sensor_id (condition a) = id)
  then getattr reading (field (condition a))
  else None.

(** The transition table of the alert state machine: trigger on a met
    condition when not triggered and the cooldown passes, clear on an unmet
    condition when triggered, no change otherwise. *)
Definition transition (a : Alert) (met : bool) (now : datetime) : Alert :=
  if met && negb (triggered a) && cooldown_ok a now
  then set_last_triggered now (set_triggered true a)
  else if negb met && triggered a then set_triggered false a
  else a.

(** The alerts after one pass of the table over a list of alerts, in list
    order; every evaluated alert reads the clock once, and the pass stops at
    the first alert whose comparison raises. *)
Fixpoint evaluated_alerts (id : string) (reading : SensorReading)
    (time : nat -> datetime) (n : nat) (l : list Alert) : list Alert :=
  match l with
  | [] => []
  | a :: rest =>
      match applicable id reading a with
      | None => a :: evaluated_alerts id reading time n rest
      | Some v =>
          match condition_met (condition a) v with
          | Ok met =>
              transition a met (time n)
              :: evaluated_alerts id reading time (S n) rest
          | Raise _ => a :: rest
          end
      end
  end.


(** The reading falls in [[start_time, end_time]], either bound optional. *)
Definition in_range (start_time end_time : option datetime) (r : SensorReading) : Prop :=
  match start_time with Some t => t <= timestamp r | None => True end
  /\ match end_time with Some t => timestamp r <= t | None => True end.

Global Instance in_range_dec start_time end_time r :
  Decision (in_range start_time end_time r).
Proof. unfold in_range. destruct start_time, end_time; apply _. Defined.

(** The readings of a log that fall in the range, in the order of the log. *)
Definition matching (start_time end_time : option datetime)
    (log : list SensorReading) : list SensorReading :=
  filter (in_range start_time end_time) log.

(** The last [k] elements of a list, or all of them when there are fewer. *)
Definition last_n {A : Type} (k : nat) (xs : list A) : list A :=
  drop (length xs - k) xs.

(** The alert [add_alert] builds from its arguments on a network with
    [n] alerts, for a sensor named [sname]. *)
Definition new_alert (n : nat) (sname id fld op : string) (val : threshold)
    (acts : list (string * Callable)) (name : option string) (cd : Z) : Alert :=
  {| alert_id := "alert_" +:+ pretty (n + 1)%nat;
     alert_name := default ("Alert for " +:+ sname +:+ "." +:+ fld) name;
     condition := cond_of id fld 0 op val;
     actions := map (fun nc => {| action_name := fst nc; callback := snd nc |}) acts;
     triggered := false; last_triggered := None; cooldown := cd |}.

(** The cooldown passes at [now]: [last_triggered] is unset, or the time
    elapsed since [last_triggered] strictly exceeds [cooldown] seconds. *)
Definition cooldown_passes (a : Alert) (now : datetime) : Prop :=
  match last_triggered a with
  | None => True
  | Some last => (inject_Z (cooldown a) < total_seconds (now - last))%Q
  end.

(* ===================================================================== *)
(** ** A small network, for concrete runs                                 *)
(* ===================================================================== *)

Definition demo_sensor : Sensor :=
  {| sensor_id := "temp_1"; sensor_name := "Living Room";
     sensor_type := "temperature"; sensor_update_interval := 1;
     pin := None; last_read_time := None |}.

(** A temperature reading of [demo_sensor] taken at time [t]. *)
Definition demo_reading (celsius : Q) (t : datetime) : SensorReading :=
  {| timestamp := t; reading_sensor_id := "temp_1";
     reading_attrs := {[ "temperature" := PFloat celsius; "unit" := PStr "C" ]} |}.

(** A callback that always raises, and one that always returns. *)
Definition failing_callback : Callable := fun _ => Some (OtherException "boom").
Definition quiet_callback : Callable := fun _ => None.

(** The alert of the demo: temperature above 25, cooldown 10 s, with a
    failing first action and a working second one. *)
Definition demo_alert (is_triggered : bool) (last : option datetime) : Alert :=
  {| alert_id := "alert_1"; alert_name := "High Temperature Alert";
     condition := cond_of "temp_1" "temperature" 0 "gt" (TFloat 25);
     actions := [ {| action_name := "notify"; callback := failing_callback |};
                  {| action_name := "activate_cooling"; callback := quiet_callback |} ];
     triggered := is_triggered; last_triggered := last; cooldown := 10 |}.

(** One second per call of [datetime.now()], starting at second 3. *)
Definition demo_clock (n : nat) : datetime := (Z.of_nat n + 3) * 1000000.

(** A replacement for [demo_sensor] under the same id. *)
Definition other_sensor : Sensor :=
  {| sensor_id := "temp_1"; sensor_name := "Bedroom";
     sensor_type := "temperature"; sensor_update_interval := 5;
     pin := Some 4; last_read_time := None |}.

(** Requests to [create_alert]: an operator outside the list, a [between]
    pair with low > high, and a [between] threshold with one value only. *)
Definition request (op : string) (val : threshold) : CreateAlertRequest :=
  {| req_sensor_id := "temp_1"; req_field := "temperature"; req_operator := op;
     req_value := val; req_name := None; req_cooldown := 0 |}.

Definition demo_state (log : list SensorReading) (registered : list Alert) : State :=
  {| net := {| net_name := "Demo Home Network"; update_interval := 1;
               sensors := {[ "temp_1" := demo_sensor ]};
               readings := {[ "temp_1" := log ]};
               alerts := registered; running := true |};
     clock := demo_clock; ticks := 0; trace := [] |}.

(** Two alerts are created, the first is deleted through the API. *)
Definition create_two_delete_first : M unit :=
  do _ <- add_alert "temp_1" "temperature" "gt" (TFloat 25) [] None 0;
  do _ <- add_alert "temp_1" "temperature" "lt" (TFloat 10) [] None 0;
  delete_alert "alert_1".

(** The ids [add_alert] hands out when no alert is ever deleted. *)
Definition sequential_ids (n : nat) : list string :=
  map (fun k : nat => "alert_" +:+ pretty k) (seq 1 n).


(* ===================================================================== *)
(** ** More of the alert engine, for the statements                       *)
(* ===================================================================== *)

(** The guard of the trigger branch of [_process_alerts]: the evaluation
    fires the actions. *)
Definition fires (a : Alert) (met : bool) (now : datetime) : bool :=
  met && negb (triggered a) && cooldown_ok a now.

(** The error a pass over the alerts stops with: the exception of the first
    evaluated alert whose comparison raises. *)
Fixpoint first_error (id : string) (reading : SensorReading) (l : list Alert)
  : option exn :=
  match l with
  | [] => None
  | a :: rest =>
      match applicable id reading a with
      | None => first_error id reading rest
      | Some v =>
          match condition_met (condition a) v with
          | Ok _ => first_error id reading rest
          | Raise e => Some e
          end
      end
  end.

(** How many alerts of the list are evaluated: each reads the clock once. *)
Fixpoint clock_reads (id : string) (reading : SensorReading) (l : list Alert) : nat :=
  match l with
  | [] => 0
  | a :: rest =>
      match applicable id reading a with
      | None => clock_reads id reading rest
      | Some _ => S (clock_reads id reading rest)
      end
  end.

(** What [_process_alerts] returns for the outcome of a pass. *)
Definition pass_result (err : option exn) : result unit :=
  match err with
  | None => Ok tt
  | Some e => Raise e
  end.

(** The attributes of an alert that evaluation never assigns. *)
Definition alert_config (a : Alert)
  : string * string * AlertCondition * list AlertAction * Z :=
  (alert_id a, alert_name a, condition a, actions a, cooldown a).


(** Every time of the list is more than [cd] seconds after the one before
    it (after [last] for the first). *)
Fixpoint spaced (cd : Z) (last : option datetime) (times : list datetime) : Prop :=
  match times with
  | [] => True
  | t :: rest =>
      match last with
      | Some l => (inject_Z cd < total_seconds (t - l))%Q
      | None => True
      end
      /\ spaced cd (Some t) rest
  end.

(** An alert on the [unit] field of the readings, which holds a string. *)
Definition unit_alert : Alert :=
  {| alert_id := "alert_0"; alert_name := "Unit Alert";
     condition := cond_of "temp_1" "unit" 0 "gt" (TFloat 0);
     actions := []; triggered := false; last_triggered := None; cooldown := 0 |}.


(* ===================================================================== *)
(** ** api/routes.py: the read-only routes                                *)
(* ===================================================================== *)

Record NetworkStatusResponse : Type := {
  status_name : string;
  status_running : bool;
  sensor_count : nat;
  alert_count : nat;
  status_update_interval : Q
}.

(** [get_status] *)
Definition get_status : M NetworkStatusResponse :=
  do network <- get_self;
  ret {| status_name := net_name network;
         status_running := running network;
         sensor_count := size (sensors network);
         alert_count := length (alerts network);
         status_update_interval := update_interval network |}.

(** [get_sensor]: the metadata of the sensor, or status 404. *)
Definition get_sensor (id : string) : M Sensor :=
  do network <- get_self;
  match sensors network !! id with
  | None => raise (HTTPException 404 ("Sensor with ID '" +:+ id +:+ "' not found"))
  | Some sensor => ret sensor
  end.

(** [list_alerts] *)
Definition list_alerts : M (list AlertResponse) :=
  do network <- get_self;
  ret (map alert_response (alerts network)).


(** The state with other alerts. *)
Definition with_alerts (l : list Alert) (st : State) : State :=
  {| net := set_alerts l (net st); clock := clock st; ticks := ticks st;
     trace := trace st |}.

(* ===================================================================== *)
(** ** Histories: the network after a sequence of calls                   *)
(* ===================================================================== *)

(** The calls that reach the network: the methods of [SensorNetwork], the
    routes that mutate it or read the store, and the cycles of the polling
    tasks. *)
Inductive api_call : Type :=
  | AddSensor (sensor : Sensor)
  | RemoveSensor (id : string)
  | AddAlert (id fld op : string) (val : threshold)
             (acts : list (string * Callable)) (name : option string) (cd : Z)
  | CreateAlert (req : CreateAlertRequest)
  | DeleteAlert (id : string)
  | PollCycle (sensor : Sensor) (o : read_outcome)
  | GetReadings (id : string) (limit : option Z) (start_time end_time : option datetime).

(** The state a call leaves, whether it returns or raises. *)
Definition exec (c : api_call) (st : State) : State :=
  match c with
  | AddSensor sensor => fst (add_sensor sensor st)
  | RemoveSensor id => fst (remove_sensor id st)
  | AddAlert id fld op val acts name cd => fst (add_alert id fld op val acts name cd st)
  | CreateAlert req => fst (create_alert req st)
  | DeleteAlert id => fst (delete_alert id st)
  | PollCycle sensor o => fst (poll_cycle sensor o st)
  | GetReadings id limit start_time end_time =>
      fst (get_sensor_readings id limit start_time end_time st)
  end.

Definition exec_all (calls : list api_call) (st : State) : State :=
  fold_left (fun s c => exec c s) calls st.

(** A network as [SensorNetwork.__init__] leaves it, with a clock. *)
Definition fresh_state (name : string) (interval : Q) (time : nat -> datetime) : State :=
  {| net := new_network name interval; clock := time; ticks := 0; trace := [] |}.

Definition is_delete_alert (c : api_call) : bool :=
  match c with
  | DeleteAlert _ => true
  | _ => false
  end.

(** How one call can change the sensors and the reading store. *)
Definition store_step (n n' : SensorNetwork) : Prop :=
  (sensors n' = sensors n /\ readings n' = readings n)
  \/ (exists sensor : Sensor,
        sensors n' = <[sensor_id sensor := sensor]> (sensors n)
        /\ readings n' = <[sensor_id sensor := []]> (readings n))
  \/ (exists id : string,
        sensors n' = delete id (sensors n) /\ readings n' = delete id (readings n))
  \/ (exists (id : string) (log : list SensorReading) (reading : SensorReading),
        readings n !! id = Some log
        /\ sensors n' = sensors n
        /\ readings n' = <[id := (log ++ [reading])%list]> (readings n)).

(** How one call can change the list of alerts. *)
Definition alerts_step (c : api_call) (l l' : list Alert) : Prop :=
  l' = l
  \/ (exists (sname id fld op : string) (val : threshold)
             (acts : list (string * Callable)) (name : option string) (cd : Z),
        l' = (l ++ [new_alert (length l) sname id fld op val acts name cd])%list)
  \/ (is_delete_alert c = true /\ exists i : nat, l' = delete i l)
  \/ (exists (id : string) (reading : SensorReading) (time : nat -> datetime) (n : nat),
        l' = evaluated_alerts id reading time n l).

(** What holds of every alert the network can hold: the comparison buffer
    is zero, and a triggered alert has a [last_triggered] time. *)
Definition well_formed_alert (a : Alert) : Prop :=
  comparison_buffer (condition a) = 0%Q
  /\ (triggered a = true -> is_Some (last_triggered a)).

(** A history without deletions, for concrete runs. *)
Definition demo_history : list api_call :=
  [ AddSensor demo_sensor;
    AddAlert "temp_1" "temperature" "gt" (TFloat 25) [] None 10;
    PollCycle demo_sensor (Reads (Some (demo_reading 26 0)));
    CreateAlert (request "eq" (TFloat 20));
    RemoveSensor "temp_1";
    PollCycle demo_sensor (Reads (Some (demo_reading 27 1000000))) ].

(* ===================================================================== *)
(** ** utils/logging.py: logger names                                     *)
(* ===================================================================== *)

(** [name.startswith(p)] *)
Definition startswith (name p : string) : bool := String.prefix p name.

(** The name [get_logger] asks the logging module for. *)
Definition get_logger_name (name : string) : string :=
  if negb (startswith name "smartsense") && negb (startswith name "__main__")
  then "smartsense." +:+ name
  else name.

(* ===================================================================== *)
(** ** sensors/base.py: virtual sensors                                   *)
(* ===================================================================== *)

(** The virtual sensors the module defines: [VirtualSensor] with its default
    reading class ([SensorReading], field [value]), [TemperatureSensor]
    ([TemperatureReading], field [temperature]) and [HumiditySensor]
    ([HumidityReading], field [humidity]). *)
Inductive sensor_kind : Type :=
  | Virtual
  | Temperature
  | Humidity.

Definition reading_field (k : sensor_kind) : string :=
  match k with
  | Virtual => "value"
  | Temperature => "temperature"
  | Humidity => "humidity"
  end.

(** The attributes of a [VirtualSensor] object: those of [Sensor], the
    configuration, and the state the reads update. *)
Record VirtualSensor : Type := {
  base : Sensor;
  kind : sensor_kind;
  min_value : Q;
  max_value : Q;
  noise_level : Q;
  current_value : Q;
  initialized : bool;
  last_reading : option SensorReading
}.

(** The builtins [min(x, y)] and [max(x, y)]: the first argument wins ties. *)
Definition py_min (x y : Q) : Q := if Qlt_bool y x then y else x.
Definition py_max (x y : Q) : Q := if Qlt_bool x y then y else x.

(** [HumidityReading.validate_humidity] *)
Definition validate_humidity (v : Q) : result Q :=
  if negb (Qle_bool 0 v && Qle_bool v 100)
  then Raise (ValueError "Humidity must be between 0 and 100%")
  else Ok v.

(** The call of [self.reading_class] on the data: the reading of the
    sensor's kind with the generated value, stamped with the current time;
    the humidity validator may reject the value. *)
Definition make_reading (k : sensor_kind) (id : string) (v : Q) (now : datetime)
  : result SensorReading :=
  match k with
  | Virtual =>
      Ok {| timestamp := now; reading_sensor_id := id;
            reading_attrs := {[ "value" := PFloat v ]} |}
  | Temperature =>
      Ok {| timestamp := now; reading_sensor_id := id;
            reading_attrs := {[ "temperature" := PFloat v; "unit" := PStr "C" ]} |}
  | Humidity =>
      match validate_humidity v with
      | Ok v' =>
          Ok {| timestamp := now; reading_sensor_id := id;
                reading_attrs := {[ "humidity" := PFloat v' ]} |}
      | Raise e => Raise e
      end
  end.

Definition set_last_read_time (t : Q) (s : Sensor) : Sensor :=
  {| sensor_id := sensor_id s; sensor_name := sensor_name s;
     sensor_type := sensor_type s; sensor_update_interval := sensor_update_interval s;
     pin := pin s; last_read_time := Some t |}.

(** [VirtualSensor.read]: [noise] and [drift] are the two random draws,
    [now] and [t] what [datetime.now()] and [time.time()] return. The sensor
    is initialized on its first read; its value moves and is clamped before
    the reading is built, so these changes stay when the reading is
    rejected. *)
Definition virtual_read (s : VirtualSensor) (noise drift : Q) (now : datetime) (t : Q)
  : VirtualSensor * result (option SensorReading) :=
  let moved := (current_value s + (noise + drift))%Q in
  let clamped := py_max (min_value s) (py_min moved (max_value s)) in
  match make_reading (kind s) (sensor_id (base s)) clamped now with
  | Ok reading =>
      ({| base := set_last_read_time t (base s); kind := kind s;
          min_value := min_value s; max_value := max_value s;
          noise_level := noise_level s; current_value := clamped;
          initialized := true; last_reading := Some reading |},
       Ok (Some reading))
  | Raise e =>
      ({| base := base s; kind := kind s;
          min_value := min_value s; max_value := max_value s;
          noise_level := noise_level s; current_value := clamped;
          initialized := true; last_reading := last_reading s |},
       Raise e)
  end.


(** A humidity sensor like the demo's, and one whose range leaves the
    percentage scale. *)
Definition demo_humidity (lo hi : Q) : VirtualSensor :=
  {| base := {| sensor_id := "hum_1"; sensor_name := "Living Room Humidity";
                sensor_type := "humidity"; sensor_update_interval := 3;
                pin := None; last_read_time := None |};
     kind := Humidity; min_value := lo; max_value := hi; noise_level := 1 # 2;
     current_value := (lo + hi) / 2; initialized := false; last_reading := None |}.

(* ===================================================================== *)
(** ** Numbers                                                            *)
(* ===================================================================== *)

Lemma Qlt_bool_iff (x y : Q) : Qlt_bool x y = true <-> (x < y)%Q.
Proof.
  unfold Qlt_bool. rewrite negb_true_iff.
  split.
  - intros H. apply Qnot_le_lt. intros Hle.
    apply Qle_bool_iff in Hle. congruence.
  - intros H. destruct (Qle_bool y x) eqn:E; [|reflexivity].
    apply Qle_bool_iff in E. exfalso. exact (Qlt_not_le _ _ H E).
Qed.

Lemma Qlt_bool_false_iff (x y : Q) : Qlt_bool x y = false <-> (y <= x)%Q.
Proof.
  unfold Qlt_bool. rewrite negb_false_iff. apply Qle_bool_iff.
Qed.

(* ===================================================================== *)
(** ** The condition of an alert                                          *)
(* ===================================================================== *)

Section Condition.
Variables (sid fld : string) (b : Q).





Lemma condition_met_between v lo hi :
  condition_met (cond_of sid fld b "between" (TList [lo; hi])) (PFloat v)
  = Ok (Qle_bool lo v && Qle_bool v hi).
Proof. reflexivity. Qed.

End Condition.

(* ===================================================================== *)
(** ** Running the actions of an alert                                    *)
(* ===================================================================== *)

Lemma calls_app (xs ys : list event) : calls (xs ++ ys) = (calls xs ++ calls ys)%list.
Proof.
  induction xs as [|ev xs IH]; [reflexivity|].
  destruct ev; simpl; rewrite IH; reflexivity.
Qed.

Lemma calls_action_events (name : string) (acts : list AlertAction) (before : list event) :
  calls (action_events name acts before) = map action_name acts.
Proof.
  revert before. induction acts as [|a acts IH]; intros before; [reflexivity|].
  simpl. f_equal. apply IH.
Qed.

Lemma with_trace_same (st : State) : with_trace (trace st) st = st.
Proof. destruct st; reflexivity. Qed.

(** Whatever the callbacks do, [execute_actions] returns normally, leaves
    the network as it is and adds exactly the events of [action_events]. *)
Lemma execute_actions_run (alert : Alert) (st : State) :
  execute_actions alert st
  = (with_trace (trace st ++ action_events (alert_name alert) (actions alert) (trace st)) st,
     Ok tt).
Proof.
  unfold execute_actions.
  generalize (alert_name alert) as name. intros name.
  generalize (actions alert) as acts. intros acts. revert st.
  induction acts as [|a acts IH]; intros st.
  - simpl. unfold ret. rewrite app_nil_r, with_trace_same. reflexivity.
  - cbn [for_each action_events]. unfold bind at 1.
    unfold try_except at 1. unfold bind at 1. unfold call at 1.
    destruct (callback a (trace st)) as [e|] eqn:Hcb.
    + unfold logger, emit at 1. cbn [trace net clock ticks].
      rewrite IH. cbn [trace net clock ticks with_trace].
      rewrite <- !app_assoc. reflexivity.
    + unfold logger, emit at 1. cbn [trace net clock ticks].
      rewrite IH. cbn [trace net clock ticks with_trace].
      rewrite <- !app_assoc. reflexivity.
Qed.

(* ===================================================================== *)
(** ** One alert against one reading                                      *)
(* ===================================================================== *)

Section ProcessAlert.
Variables (id : string) (reading : SensorReading) (i : nat).
Variables (st : State) (a : Alert) (v : pyval).

Hypothesis Hlookup : alerts (net st) !! i = Some a.
Hypothesis Hsensor : cond_sensor_id (condition a) = id.
Hypothesis Hfield : getattr reading (field (condition a)) = Some v.

Let now : datetime := clock st (ticks st).

Lemma process_alert_raises e :
  condition_met (condition a) v = Raise e ->
  process_alert id reading i st = (st, Raise e).
Proof.
  intros Hmet. unfold process_alert, bind, get_self.
  rewrite Hlookup. destruct (decide _) as [Hne|_]; [contradiction|].
  rewrite Hfield, Hmet. reflexivity.
Qed.

Lemma process_alert_trigger :
  condition_met (condition a) v = Ok true ->
  triggered a = false ->
  cooldown_ok a now = true ->
  process_alert id reading i st = (after_trigger i a v st, Ok tt).
Proof.
  intros Hmet Htr Hcd. unfold process_alert, bind at 1, get_self.
  rewrite Hlookup. destruct (decide _) as [Hne|_]; [contradiction|].
  rewrite Hfield, Hmet. unfold bind at 1, eval. unfold bind at 1, datetime_now.
  fold now. rewrite Htr, Hcd. cbn [andb negb].
  unfold bind at 1, store_alert, update_self. cbn [net clock ticks trace].
  unfold bind at 1. rewrite execute_actions_run.
  unfold logger, emit, with_trace, after_trigger. cbn [net clock ticks trace].
  rewrite <- app_assoc. reflexivity.
Qed.

Lemma process_alert_clear :
  condition_met (condition a) v = Ok false ->
  triggered a = true ->
  process_alert id reading i st = (after_clear i a v st, Ok tt).
Proof.
  intros Hmet Htr. unfold process_alert, bind at 1, get_self.
  rewrite Hlookup. destruct (decide _) as [Hne|_]; [contradiction|].
  rewrite Hfield, Hmet. unfold bind at 1, eval. unfold bind at 1, datetime_now.
  rewrite Htr. cbn [andb negb].
  unfold bind at 1, store_alert, update_self. cbn [net clock ticks trace].
  unfold logger, emit. cbn [net clock ticks trace]. reflexivity.
Qed.

Lemma process_alert_idle met :
  condition_met (condition a) v = Ok met ->
  met && negb (triggered a) && cooldown_ok a now = false ->
  negb met && triggered a = false ->
  process_alert id reading i st = (tick st, Ok tt).
Proof.
  intros Hmet H1 H2. unfold process_alert, bind at 1, get_self.
  rewrite Hlookup. destruct (decide _) as [Hne|_]; [contradiction|].
  rewrite Hfield, Hmet. unfold bind at 1, eval. unfold bind at 1, datetime_now.
  fold now. rewrite H1, H2. reflexivity.
Qed.
End ProcessAlert.

Lemma cooldown_ok_iff (a : Alert) (now : datetime) :
  cooldown_ok a now = true <-> cooldown_passes a now.
Proof.
  unfold cooldown_ok, cooldown_passes.
  destruct (last_triggered a); [apply Qlt_bool_iff | tauto].
Qed.



(** C9. When the condition is met, the alert is not triggered and the
    cooldown has not elapsed since [last_triggered], the evaluation returns
    normally, leaves the network as it is (so [triggered] stays false and
    [last_triggered] keeps its value) and adds nothing to the trace: no
    action is invoked. *)
Theorem suppressed_edge_changes_nothing
    (id : string) (reading : SensorReading) (i : nat) (st : State)
    (a : Alert) (v : pyval) (last : datetime) :
  alerts (net st) !! i = Some a ->
  cond_sensor_id (condition a) = id ->
  getattr reading (field (condition a)) = Some v ->
  condition_met (condition a) v = Ok true ->
  triggered a = false ->
  last_triggered a = Some last ->
  (total_seconds (clock st (ticks st) - last) <= inject_Z (cooldown a))%Q ->
  exists st' : State,
    process_alert id reading i st = (st', Ok tt)
    /\ net st' = net st
    /\ (exists a' : Alert,
          alerts (net st') !! i = Some a'
          /\ triggered a' = false /\ last_triggered a' = Some last)
    /\ trace st' = trace st.
Proof.
  intros Hl Hs Hf Hm Htr Hlast Hcd.
  exists (tick st). split; [|split; [|split]]; try reflexivity.
  2: { exists a. auto. }
  eapply process_alert_idle; eauto.
  rewrite Htr. unfold cooldown_ok. rewrite Hlast.
  apply Qlt_bool_false_iff in Hcd. rewrite Hcd. reflexivity.
Qed.

Lemma suppressed_edge_changes_nothing_witness :
  exists st' : State,
    process_alert "temp_1" (demo_reading 26 3000000) 0
                  (demo_state [] [demo_alert false (Some 0)])
    = (st', Ok tt)
    /\ alerts (net st') = [demo_alert false (Some 0)]
    /\ trace st' = [].
Proof.
  destruct (suppressed_edge_changes_nothing
              "temp_1" (demo_reading 26 3000000) 0
              (demo_state [] [demo_alert false (Some 0)])
              (demo_alert false (Some 0)) (PFloat 26) 0
              eq_refl eq_refl
              ltac:(vm_compute; reflexivity) ltac:(vm_compute; reflexivity)
              eq_refl eq_refl ltac:(vm_compute; discriminate))
    as (st' & Hrun & Hnet & _ & Htrace).
  exists st'. split; [exact Hrun|]. split.
  - rewrite Hnet. reflexivity.
  - rewrite Htrace. reflexivity.
Defined.

(* ===================================================================== *)
(** ** The loop over the alerts and the polling cycle                     *)
(* ===================================================================== *)

Lemma same_store_refl (st : State) : same_store st st.
Proof. repeat split. Qed.

Lemma same_store_trans (st1 st2 st3 : State) :
  same_store st1 st2 -> same_store st2 st3 -> same_store st1 st3.
Proof.
  unfold same_store. intros (A1 & A2 & A3 & A4) (B1 & B2 & B3 & B4).
  repeat split; congruence.
Qed.

(** A loop keeps every reflexive and transitive relation its body keeps. *)
Lemma for_each_keeps {A : Type} (R : State -> State -> Prop) (body : A -> M unit) :
  (forall st, R st st) ->
  (forall st1 st2 st3, R st1 st2 -> R st2 st3 -> R st1 st3) ->
  (forall x st st' r, body x st = (st', r) -> R st st') ->
  forall xs st st' r, for_each xs body st = (st', r) -> R st st'.
Proof.
  intros Hrefl Htrans Hbody xs.
  induction xs as [|x xs IH]; intros st st' r Hrun.
  - inversion Hrun; subst. apply Hrefl.
  - cbn [for_each] in Hrun. unfold bind in Hrun.
    destruct (body x st) as [st1 [[]|e]] eqn:Hx.
    + eapply Htrans; [eapply Hbody; eassumption | eapply IH; eassumption].
    + inversion Hrun; subst. eapply Hbody; eassumption.
Qed.

Lemma process_alert_same_store id reading i st st' r :
  process_alert id reading i st = (st', r) -> same_store st st'.
Proof.
  intros Hrun.
  destruct (alerts (net st) !! i) as [a|] eqn:Hl.
  2: { unfold process_alert, bind, get_self in Hrun. rewrite Hl in Hrun.
       inversion Hrun; subst. apply same_store_refl. }
  destruct (decide (cond_sensor_id (condition a) = id)) as [Hs|Hs].
  2: { unfold process_alert, bind, get_self in Hrun. rewrite Hl in Hrun.
       destruct (decide _) as [_|Hn]; [|contradiction].
       inversion Hrun; subst. apply same_store_refl. }
  destruct (getattr reading (field (condition a))) as [v|] eqn:Hf.
  2: { unfold process_alert, bind, get_self in Hrun. rewrite Hl in Hrun.
       destruct (decide _) as [Hn|_]; [contradiction|].
       rewrite Hf in Hrun. inversion Hrun; subst. repeat split. }
  destruct (condition_met (condition a) v) as [met|e] eqn:Hm.
  2: { rewrite (process_alert_raises id reading i st a v Hl Hs Hf e Hm) in Hrun.
       inversion Hrun; subst. apply same_store_refl. }
  destruct (met && negb (triggered a) && cooldown_ok a (clock st (ticks st))) eqn:H1.
  - apply andb_true_iff in H1 as [H1 Hcd]. apply andb_true_iff in H1 as [-> Htr].
    apply negb_true_iff in Htr.
    rewrite (process_alert_trigger id reading i st a v Hl Hs Hf Hm Htr Hcd) in Hrun.
    inversion Hrun; subst. repeat split. simpl. apply length_insert.
  - destruct (negb met && triggered a) eqn:H2.
    + apply andb_true_iff in H2 as [Hmet Htr]. apply negb_true_iff in Hmet. subst met.
      rewrite (process_alert_clear id reading i st a v Hl Hs Hf Hm Htr) in Hrun.
      inversion Hrun; subst. repeat split. simpl. apply length_insert.
    + rewrite (process_alert_idle id reading i st a v Hl Hs Hf met Hm H1 H2) in Hrun.
      inversion Hrun; subst. repeat split.
Qed.

Lemma process_alerts_same_store id reading st st' r :
  process_alerts id reading st = (st', r) -> same_store st st'.
Proof.
  unfold process_alerts, bind, get_self. intros Hrun.
  eapply (for_each_keeps same_store); try eassumption.
  - apply same_store_refl.
  - apply same_store_trans.
  - intros x s s' r'. apply process_alert_same_store.
Qed.

(** An alert on another sensor, or on a field the reading lacks, is
    skipped: neither the network nor the clock is touched. *)
Lemma process_alert_skip id reading i st a :
  alerts (net st) !! i = Some a ->
  applicable id reading a = None ->
  exists st' : State,
    process_alert id reading i st = (st', Ok tt)
    /\ net st' = net st /\ clock st' = clock st /\ ticks st' = ticks st.
Proof.
  intros Hl Happ. unfold applicable in Happ.
  unfold process_alert, bind, get_self. rewrite Hl.
  destruct (decide (cond_sensor_id (condition a) = id)) as [Hs|Hs].
  - destruct (decide _) as [Hn|_]; [contradiction|]. rewrite Happ.
    eexists. split; [reflexivity|]. repeat split.
  - destruct (decide _) as [_|Hn]; [|contradiction].
    eexists. split; [reflexivity|]. repeat split.
Qed.

(** An evaluated alert moves by the transition table and reads the clock
    once. *)
Lemma process_alert_step id reading i st a v met :
  alerts (net st) !! i = Some a ->
  applicable id reading a = Some v ->
  condition_met (condition a) v = Ok met ->
  exists st' : State,
    process_alert id reading i st = (st', Ok tt)
    /\ alerts (net st')
       = <[i := transition a met (clock st (ticks st))]> (alerts (net st))
    /\ clock st' = clock st /\ ticks st' = S (ticks st).
Proof.
  intros Hl Happ Hm. unfold applicable in Happ.
  destruct (decide (cond_sensor_id (condition a) = id)) as [Hs|Hs]; [|discriminate].
  unfold transition.
  destruct (met && negb (triggered a) && cooldown_ok a (clock st (ticks st))) eqn:H1.
  - apply andb_true_iff in H1 as [H1 Hcd]. apply andb_true_iff in H1 as [-> Htr].
    apply negb_true_iff in Htr.
    rewrite (process_alert_trigger id reading i st a v Hl Hs Happ Hm Htr Hcd).
    eexists. split; [reflexivity|]. repeat split.
  - destruct (negb met && triggered a) eqn:H2.
    + apply andb_true_iff in H2 as [Hmet Htr]. apply negb_true_iff in Hmet. subst met.
      rewrite (process_alert_clear id reading i st a v Hl Hs Happ Hm Htr).
      eexists. split; [reflexivity|]. repeat split.
    + rewrite (process_alert_idle id reading i st a v Hl Hs Happ met Hm H1 H2).
      eexists. split; [reflexivity|]. cbn [tick net clock ticks].
      rewrite list_insert_id by exact Hl. repeat split.
Qed.

(** The loop of [_process_alerts] from index [length done] on. *)
Lemma for_each_process_alert id reading (rest : list Alert) :
  forall (done : list Alert) (st : State),
    alerts (net st) = (done ++ rest)%list ->
    exists (st' : State) (r : result unit),
      for_each (seq (length done) (length rest)) (process_alert id reading) st = (st', r)
      /\ alerts (net st')
         = (done ++ evaluated_alerts id reading (clock st) (ticks st) rest)%list.
Proof.
  induction rest as [|a rest IH]; intros done st Hal.
  - exists st, (Ok tt). split; [reflexivity|]. exact Hal.
  - assert (Hl : alerts (net st) !! length done = Some a).
    { rewrite Hal. apply list_lookup_middle. reflexivity. }
    cbn [length seq for_each evaluated_alerts]. unfold bind at 1.
    destruct (applicable id reading a) as [v|] eqn:Happ.
    + destruct (condition_met (condition a) v) as [met|e] eqn:Hm.
      * destruct (process_alert_step id reading _ st a v met Hl Happ Hm)
          as (st1 & -> & Hal1 & Hc & Ht).
        destruct (IH (done ++ [transition a met (clock st (ticks st))])%list st1)
          as (st' & r & Hrun & Hal').
        { rewrite Hal1, Hal, <- app_assoc. cbn [app].
          rewrite insert_app_r_alt by lia. rewrite Nat.sub_diag. reflexivity. }
        rewrite length_app in Hrun. cbn [length] in Hrun.
        replace (length done + 1)%nat with (S (length done)) in Hrun by lia.
        exists st', r. split; [exact Hrun|].
        rewrite Hal', Hc, Ht, <- app_assoc. reflexivity.
      * unfold applicable in Happ.
        destruct (decide (cond_sensor_id (condition a) = id)) as [Hs|Hs];
          [|discriminate].
        rewrite (process_alert_raises id reading _ st a v Hl Hs Happ e Hm).
        exists st, (Raise e). split; [reflexivity|]. exact Hal.
    + destruct (process_alert_skip id reading _ st a Hl Happ)
        as (st1 & -> & Hn & Hc & Ht).
      destruct (IH (done ++ [a])%list st1) as (st' & r & Hrun & Hal').
      { rewrite Hn, Hal, <- app_assoc. reflexivity. }
      rewrite length_app in Hrun. cbn [length] in Hrun.
      replace (length done + 1)%nat with (S (length done)) in Hrun by lia.
      exists st', r. split; [exact Hrun|].
      rewrite Hal', Hc, Ht, <- app_assoc. reflexivity.
Qed.

(** [_process_alerts] applies the transition table to every alert of the
    sensor whose field the reading has, in list order, up to the first
    alert whose comparison raises. *)
Lemma process_alerts_evaluates_each id reading (st : State) :
  exists (st' : State) (r : result unit),
    process_alerts id reading st = (st', r)
    /\ alerts (net st')
       = evaluated_alerts id reading (clock st) (ticks st) (alerts (net st)).
Proof.
  unfold process_alerts, bind, get_self.
  apply (for_each_process_alert id reading (alerts (net st)) [] st). reflexivity.
Qed.

(** A polling cycle never lets an exception escape. *)
Lemma poll_cycle_returns (sensor : Sensor) (o : read_outcome) (st : State) :
  exists st' : State, poll_cycle sensor o st = (st', Ok tt).
Proof.
  unfold poll_cycle, bind at 1, try_except.
  match goal with |- context [match ?body st with _ => _ end] =>
    destruct (body st) as [st1 [[]|e]] end.
  - eexists. reflexivity.
  - eexists. reflexivity.
Qed.

(** The polling task returns normally, whatever the reads and the alert
    evaluations of its cycles do. *)
Lemma poll_sensor_returns (sensor : Sensor) (cycles : list read_outcome) (st : State) :
  exists st' : State, poll_sensor sensor cycles st = (st', Ok tt).
Proof.
  revert st. induction cycles as [|o cycles IH]; intros st.
  - eexists. reflexivity.
  - cbn [poll_sensor]. unfold bind at 1, get_self.
    destruct (running (net st)); [|eexists; reflexivity].
    unfold bind at 1.
    destruct (poll_cycle_returns sensor o st) as [st1 ->].
    apply IH.
Qed.


(** A cycle without a reading leaves the network as it is. *)
Lemma poll_cycle_no_reading (sensor : Sensor) (o : read_outcome) (st : State) :
  o = Reads None \/ (exists e, o = ReadRaises e) ->
  exists st' : State, poll_cycle sensor o st = (st', Ok tt) /\ net st' = net st.
Proof.
  intros [->|[e ->]]; eexists; split; reflexivity.
Qed.


Lemma action_events_app (name : string) (xs ys : list AlertAction) (before : list event) :
  action_events name (xs ++ ys) before
  = (action_events name xs before
     ++ action_events name ys (before ++ action_events name xs before))%list.
Proof.
  revert before. induction xs as [|x xs IH]; intros before.
  - simpl. rewrite app_nil_r. reflexivity.
  - cbn [app action_events]. rewrite IH. cbn [app].
    do 2 f_equal. f_equal. f_equal. rewrite <- app_assoc. reflexivity.
Qed.

(** C6. When an alert triggers and the callback of one of its actions
    raises, the evaluation still returns normally: every action of the
    alert, those after the failing one included, is invoked in order, the
    failure is logged, the alert stays triggered with [last_triggered] set
    to the current time, and the polling task returns normally from any
    run of cycles. *)
Theorem action_failure_is_isolated
    (id : string) (reading : SensorReading) (i : nat) (st : State)
    (a : Alert) (v : pyval)
    (pre post : list AlertAction) (act : AlertAction) (e : exn) :
  alerts (net st) !! i = Some a ->
  cond_sensor_id (condition a) = id ->
  getattr reading (field (condition a)) = Some v ->
  condition_met (condition a) v = Ok true ->
  triggered a = false ->
  cooldown_passes a (clock st (ticks st)) ->
  actions a = (pre ++ act :: post)%list ->
  callback act (trace st ++ action_events (alert_name a) pre (trace st))%list = Some e ->
  exists (st' : State) (evs : list event),
    process_alert id reading i st = (st', Ok tt)
    /\ trace st' = (trace st ++ evs)%list
    /\ calls evs = (map action_name pre ++ action_name act :: map action_name post)%list
    /\ In (Logged (ActionError (action_name act) e)) evs
    /\ alerts (net st') !! i
       = Some (set_last_triggered (clock st (ticks st)) (set_triggered true a))
    /\ (forall (sensor : Sensor) (cycles : list read_outcome) (st0 : State),
          exists st1 : State, poll_sensor sensor cycles st0 = (st1, Ok tt)).
Proof.
  intros Hl Hs Hf Hm Htr Hcd Hacts Hraise.
  apply cooldown_ok_iff in Hcd.
  exists (after_trigger i a v st),
    (action_events (alert_name a) (actions a) (trace st)
     ++ [Logged (AlertTriggered (alert_name a) (field (condition a)) v)])%list.
  split; [|split; [|split; [|split; [|split]]]].
  - eapply process_alert_trigger; eauto.
  - reflexivity.
  - rewrite calls_app, calls_action_events, Hacts, map_app. simpl.
    rewrite app_nil_r. reflexivity.
  - rewrite Hacts, action_events_app. cbn [action_events]. rewrite Hraise.
    apply in_or_app. left. apply in_or_app. right. simpl. auto.
  - unfold after_trigger. cbn [net alerts set_alerts].
    apply list_lookup_insert_eq. eapply lookup_lt_Some. exact Hl.
  - apply poll_sensor_returns.
Qed.

Lemma action_failure_is_isolated_witness :
  exists st' : State,
    process_alert "temp_1" (demo_reading 26 0) 0 (demo_state [] [demo_alert false None])
    = (st', Ok tt)
    /\ trace st'
       = [ Called "notify";
           Logged (ActionError "notify" (OtherException "boom"));
           Called "activate_cooling";
           Logged (ActionExecuted "activate_cooling" "High Temperature Alert");
           Logged (AlertTriggered "High Temperature Alert" "temperature" (PFloat 26)) ]
    /\ alerts (net st') !! 0%nat = Some (demo_alert true (Some 3000000)).
Proof.
  destruct (action_failure_is_isolated
              "temp_1" (demo_reading 26 0) 0 (demo_state [] [demo_alert false None])
              (demo_alert false None) (PFloat 26)
              [] [ {| action_name := "activate_cooling"; callback := quiet_callback |} ]
              {| action_name := "notify"; callback := failing_callback |}
              (OtherException "boom")
              eq_refl eq_refl
              ltac:(vm_compute; reflexivity) ltac:(vm_compute; reflexivity)
              eq_refl I eq_refl eq_refl)
    as (st' & evs & Hrun & Htrace & _ & _ & Hal & _).
  exists st'. split; [exact Hrun|]. split; [|exact Hal].
  assert (Hst : st' = after_trigger 0 (demo_alert false None) (PFloat 26)
                        (demo_state [] [demo_alert false None])).
  { assert (H := process_alert_trigger
                   "temp_1" (demo_reading 26 0) 0 (demo_state [] [demo_alert false None])
                   (demo_alert false None) (PFloat 26)
                   eq_refl eq_refl
                   ltac:(vm_compute; reflexivity) ltac:(vm_compute; reflexivity)
                   eq_refl eq_refl).
    rewrite H in Hrun. congruence. }
  rewrite Hst. reflexivity.
Defined.

(* ===================================================================== *)
(** ** Registration of sensors and alerts                                 *)
(* ===================================================================== *)

(** C10. [add_sensor] with the id of a registered sensor returns normally:
    the sensor object under that id is replaced by the new one and the
    reading history of that id becomes the empty list, whatever it held;
    other ids and the alerts are untouched. *)
Theorem add_sensor_replaces_and_resets (sensor old : Sensor) (st : State) :
  sensors (net st) !! sensor_id sensor = Some old ->
  exists st' : State,
    add_sensor sensor st = (st', Ok tt)
    /\ sensors (net st') !! sensor_id sensor = Some sensor
    /\ readings (net st') !! sensor_id sensor = Some []
    /\ (forall other : string, other <> sensor_id sensor ->
          sensors (net st') !! other = sensors (net st) !! other
          /\ readings (net st') !! other = readings (net st) !! other)
    /\ alerts (net st') = alerts (net st).
Proof.
  intros Hold. unfold add_sensor, bind, get_self.
  rewrite Hold. destruct (decide _) as [_|Hn]; [|exfalso; apply Hn; eauto].
  unfold logger, emit, update_self. cbn [net clock ticks trace].
  eexists. split; [reflexivity|]. cbn [net sensors readings alerts set_sensors set_readings].
  split; [apply lookup_insert_eq|]. split; [apply lookup_insert_eq|].
  split; [|reflexivity].
  intros other Hne. split; apply lookup_insert_ne; congruence.
Qed.

Lemma add_sensor_replaces_and_resets_witness :
  exists st' : State,
    add_sensor other_sensor (demo_state [demo_reading 20 0; demo_reading 21 1] [])
    = (st', Ok tt)
    /\ sensors (net st') !! "temp_1" = Some other_sensor
    /\ readings (net st') !! "temp_1" = Some [].
Proof.
  destruct (add_sensor_replaces_and_resets
              other_sensor demo_sensor
              (demo_state [demo_reading 20 0; demo_reading 21 1] [])
              ltac:(vm_compute; reflexivity))
    as (st' & Hrun & Hs & Hr & _).
  exists st'. split; [exact Hrun|]. split; [exact Hs | exact Hr].
Defined.

(** C3. [add_alert] for a sensor id that is not registered raises a
    [ValueError] and changes nothing: the alerts, the sensors and the reading
    store (indeed the whole state) are as before the call. *)
Theorem add_alert_unknown_sensor_rejected
    (id fld op : string) (val : threshold) (acts : list (string * Callable))
    (name : option string) (cd : Z) (st : State) :
  sensors (net st) !! id = None ->
  exists (st' : State) (msg : string),
    add_alert id fld op val acts name cd st = (st', Raise (ValueError msg))
    /\ alerts (net st') = alerts (net st)
    /\ sensors (net st') = sensors (net st)
    /\ readings (net st') = readings (net st)
    /\ st' = st.
Proof.
  intros Hnone. unfold add_alert, bind, get_self. rewrite Hnone.
  eexists _, _. split; [reflexivity|]. repeat split.
Qed.

Lemma add_alert_unknown_sensor_rejected_witness :
  let st := demo_state [] [demo_alert false None] in
  exists (st' : State) (msg : string),
    add_alert "garage" "temperature" "gt" (TFloat 25) [] None 0 st
    = (st', Raise (ValueError msg))
    /\ alerts (net st') = alerts (net st)
    /\ sensors (net st') = sensors (net st)
    /\ readings (net st') = readings (net st)
    /\ st' = st.
Proof.
  apply (add_alert_unknown_sensor_rejected
           "garage" "temperature" "gt" (TFloat 25) [] None 0
           (demo_state [] [demo_alert false None])).
  vm_compute. reflexivity.
Defined.

(** [add_alert] for a registered sensor accepts every operator and every
    threshold: it appends the new alert and returns its id. *)
Lemma add_alert_registered
    (id fld op : string) (val : threshold) (acts : list (string * Callable))
    (name : option string) (cd : Z) (st : State) (sensor : Sensor) :
  sensors (net st) !! id = Some sensor ->
  let alert := new_alert (length (alerts (net st))) (sensor_name sensor)
                         id fld op val acts name cd in
  add_alert id fld op val acts name cd st
  = ({| net := set_alerts (alerts (net st) ++ [alert])%list (net st);
        clock := clock st; ticks := ticks st;
        trace := (trace st ++ [Logged (AlertCreated (alert_name alert))])%list |},
     Ok (alert_id alert)).
Proof.
  intros Hs. unfold add_alert, bind, get_self. rewrite Hs.
  destruct name; reflexivity.
Qed.

(** [create_alert] for a registered sensor and an operator of the list
    returns normally, whatever the threshold. *)
Lemma create_alert_accepts (req : CreateAlertRequest) (st : State) (sensor : Sensor) :
  sensors (net st) !! req_sensor_id req = Some sensor ->
  req_operator req ∈ valid_operators ->
  exists (st' : State) (resp : AlertResponse),
    create_alert req st = (st', Ok resp)
    /\ alerts (net st')
       = (alerts (net st)
          ++ [new_alert (length (alerts (net st))) (sensor_name sensor)
                        (req_sensor_id req) (req_field req) (req_operator req)
                        (req_value req) [("log", log_alert_action)] (req_name req)
                        (req_cooldown req)])%list.
Proof.
  intros Hs Hop. unfold create_alert, bind at 1, get_self at 1.
  destruct (decide (sensors (net st) !! req_sensor_id req = None)) as [Hn|_];
    [congruence|].
  destruct (decide (req_operator req ∉ valid_operators)) as [Hn|_]; [contradiction|].
  unfold bind at 1, try_except.
  rewrite (add_alert_registered _ _ _ _ _ _ _ st sensor Hs).
  cbv zeta. unfold bind at 1, get_self. cbn [net alerts set_alerts].
  match goal with |- context [list_find ?P ?l] =>
    destruct (list_find_elem_of P l
                (new_alert (length (alerts (net st))) (sensor_name sensor)
                   (req_sensor_id req) (req_field req) (req_operator req)
                   (req_value req) [("log", log_alert_action)] (req_name req)
                   (req_cooldown req)))
      as [[j found] Hfind]
  end.
  - apply elem_of_app. right. apply list_elem_of_singleton. reflexivity.
  - reflexivity.
  - rewrite Hfind. eexists _, _. split; reflexivity.
Qed.

(** C2, as the code has it. Through the route [create_alert] an operator
    outside [gt, lt, eq, neq, between] is rejected with status 400 and the
    state is unchanged, while [add_alert] itself accepts every operator.
    Neither path checks a [between] threshold: the route accepts every
    threshold, and at evaluation a threshold that is not a list of exactly
    two numbers is never met, a pair with low > high is never met by a
    number, and an operator outside the list is never met. *)
Theorem alert_validation_as_implemented
    (req : CreateAlertRequest) (st : State) (sensor : Sensor) :
  sensors (net st) !! req_sensor_id req = Some sensor ->
  (req_operator req ∉ valid_operators ->
     exists detail : string,
       create_alert req st = (st, Raise (HTTPException 400 detail)))
  /\ (req_operator req ∈ valid_operators ->
        exists (st' : State) (resp : AlertResponse), create_alert req st = (st', Ok resp))
  /\ (exists (st' : State) (new_id : string),
        add_alert (req_sensor_id req) (req_field req) (req_operator req) (req_value req)
                  [] (req_name req) (req_cooldown req) st = (st', Ok new_id))
  /\ (forall (c : AlertCondition) (v : pyval),
        operator c = "between" ->
        (forall lo hi : Q, value c <> TList [lo; hi]) ->
        condition_met c v = Ok false)
  /\ (forall (sid fld : string) (b lo hi x : Q),
        (hi < lo)%Q ->
        condition_met (cond_of sid fld b "between" (TList [lo; hi])) (PFloat x) = Ok false)
  /\ (forall (c : AlertCondition) (v : pyval),
        operator c ∉ valid_operators -> condition_met c v = Ok false).
Proof.
  intros Hs. split; [|split; [|split; [|split; [|split]]]].
  - intros Hop. unfold create_alert, bind, get_self.
    destruct (decide (sensors (net st) !! req_sensor_id req = None)) as [Hn|_];
      [congruence|].
    destruct (decide (req_operator req ∉ valid_operators)) as [_|Hn]; [|contradiction].
    eexists. reflexivity.
  - intros Hop. destruct (create_alert_accepts req st sensor Hs Hop) as (st' & r & H & _).
    eauto.
  - rewrite (add_alert_registered _ _ _ _ _ _ _ st sensor Hs). eexists _, _. reflexivity.
  - intros c v Hop Hshape. unfold condition_met. rewrite Hop. cbn [decide].
    repeat (destruct (decide _) as [Heq|_]; [discriminate Heq|]).
    destruct (decide _) as [_|Hne]; [|contradiction].
    destruct (value c) as [x|[|lo [|hi [|z zs]]]] eqn:Hv; try reflexivity.
    exfalso. exact (Hshape lo hi eq_refl).
  - intros sid fld b lo hi x Hlt. rewrite condition_met_between. f_equal.
    apply andb_false_iff.
    destruct (Qle_bool lo x) eqn:H1; [right | left; reflexivity].
    destruct (Qle_bool x hi) eqn:H2; [|reflexivity].
    apply Qle_bool_iff in H1, H2. exfalso.
    apply (Qlt_not_le _ _ Hlt). eapply Qle_trans; eassumption.
  - intros c v Hop. unfold condition_met, valid_operators in *.
    repeat (destruct (decide _) as [Heq|_];
            [exfalso; apply Hop; rewrite Heq; set_solver|]).
    reflexivity.
Qed.

Lemma alert_validation_as_implemented_witness :
  exists detail : string,
    create_alert (request "above" (TFloat 25)) (demo_state [] [])
    = (demo_state [] [], Raise (HTTPException 400 detail)).
Proof.
  destruct (alert_validation_as_implemented
              (request "above" (TFloat 25)) (demo_state [] []) demo_sensor
              ltac:(vm_compute; reflexivity))
    as [Hreject _].
  apply Hreject.
  apply (bool_decide_unpack ("above" ∉ valid_operators)). vm_compute. exact I.
Defined.

(** C2 fails as stated: [add_alert] registers an alert whose operator is
    outside the list, and the route registers [between] alerts whose
    threshold is a pair with low > high or has a single value. *)
Lemma malformed_alerts_are_registered :
  (exists st' : State,
     add_alert "temp_1" "temperature" "above" (TFloat 25) [] None 0 (demo_state [] [])
     = (st', Ok "alert_1"))
  /\ (exists (st' : State) (resp : AlertResponse),
        create_alert (request "between" (TList [26; 18]%Q)) (demo_state [] [])
        = (st', Ok resp)
        /\ ar_id resp = "alert_1" /\ ar_value resp = TList [26; 18]%Q)
  /\ (exists (st' : State) (resp : AlertResponse),
        create_alert (request "between" (TList [18]%Q)) (demo_state [] [])
        = (st', Ok resp)
        /\ ar_id resp = "alert_1" /\ ar_value resp = TList [18]%Q).
Proof.
  split; [|split].
  - eexists. vm_compute. reflexivity.
  - eexists _, _. split; [vm_compute; reflexivity|]. split; reflexivity.
  - eexists _, _. split; [vm_compute; reflexivity|]. split; reflexivity.
Qed.

(** As long as no alert has been deleted, the ids of the alerts are
    [alert_1], ..., [alert_n] and the id [add_alert] returns is new. *)
Lemma add_alert_id_fresh_without_deletion
    (id fld op : string) (val : threshold) (acts : list (string * Callable))
    (name : option string) (cd : Z) (st : State) (sensor : Sensor) :
  sensors (net st) !! id = Some sensor ->
  map alert_id (alerts (net st)) = sequential_ids (length (alerts (net st))) ->
  exists (st' : State) (new_id : string),
    add_alert id fld op val acts name cd st = (st', Ok new_id)
    /\ ~ In new_id (map alert_id (alerts (net st)))
    /\ map alert_id (alerts (net st')) = sequential_ids (length (alerts (net st'))).
Proof.
  intros Hs Hids. rewrite (add_alert_registered _ _ _ _ _ _ _ st sensor Hs).
  eexists _, _. split; [reflexivity|]. cbn [net alerts set_alerts new_alert alert_id].
  split.
  - rewrite Hids. unfold sequential_ids. intros Hin.
    apply in_map_iff in Hin as (k & Heq & Hk). apply in_seq in Hk.
    injection Heq as Heq. apply pretty_nat_inj in Heq. lia.
  - rewrite map_app, length_app, Hids. cbn [map length alert_id].
    unfold sequential_ids. rewrite seq_app, map_app. cbn [seq map].
    f_equal. unfold new_alert. cbn [alert_id]. do 3 f_equal. lia.
Qed.

(** C5 fails on the code once an alert has been deleted: after creating two
    alerts and deleting [alert_1], the only alert left is [alert_2], and the
    next [add_alert] returns [alert_2] again, so two alerts share the id. *)
Theorem alert_id_reused_after_deletion :
  exists st1 st2 : State,
    create_two_delete_first (demo_state [] []) = (st1, Ok tt)
    /\ map alert_id (alerts (net st1)) = ["alert_2"]
    /\ add_alert "temp_1" "temperature" "gt" (TFloat 30) [] None 0 st1
       = (st2, Ok "alert_2")
    /\ map alert_id (alerts (net st2)) = ["alert_2"; "alert_2"].
Proof.
  eexists _, _. split; [vm_compute; reflexivity|].
  split; [reflexivity|]. split; [vm_compute; reflexivity|]. reflexivity.
Qed.

(* ===================================================================== *)
(** ** Removing a sensor                                                  *)
(* ===================================================================== *)

(** C8, as the code has it. [remove_sensor] never raises: it returns
    [True] for a registered id and [False], with the network unchanged,
    otherwise. A successful removal deletes the sensor and its reading log,
    and every later readings query for that id (with a limit in range) is
    answered with status 404, not with an empty list. *)
Theorem remove_sensor_reports_and_unregisters (id : string) (st : State) :
  exists (st' : State) (removed : bool),
    remove_sensor id st = (st', Ok removed)
    /\ (is_Some (sensors (net st) !! id) ->
        removed = true
        /\ sensors (net st') = delete id (sensors (net st))
        /\ readings (net st') = delete id (readings (net st))
        /\ readings (net st') !! id = None
        /\ forall (limit : option Z) (start_time end_time : option datetime),
             1 <= default default_limit limit <= 1000 ->
             get_sensor_readings id limit start_time end_time st'
             = (st', Raise (HTTPException 404
                              ("Sensor with ID '" +:+ id +:+ "' not found"))))
    /\ (sensors (net st) !! id = None -> removed = false /\ net st' = net st).
Proof.
  unfold remove_sensor, bind, get_self.
  destruct (decide (is_Some (sensors (net st) !! id))) as [Hsome|Hnone].
  - unfold update_self, logger, emit, ret. cbn [net clock ticks trace].
    eexists _, _. split; [reflexivity|]. split.
    + intros _. cbn [net sensors readings set_sensors set_readings].
      split; [reflexivity|]. split; [reflexivity|]. split; [reflexivity|].
      split; [apply lookup_delete_eq|].
      intros limit start_time end_time [Hlo Hhi].
      unfold get_sensor_readings, bind, check_limit, get_self.
      apply Z.leb_le in Hlo, Hhi. rewrite Hlo, Hhi. unfold ret.
      cbn [andb net sensors set_sensors set_readings].
      rewrite lookup_delete_eq. reflexivity.
    + intros Hn. rewrite Hn in Hsome. destruct Hsome as [x Hx]. discriminate.
  - unfold logger, emit, ret. cbn [net clock ticks trace].
    eexists _, _. split; [reflexivity|]. split.
    + intros Hsome. contradiction.
    + intros _. split; reflexivity.
Qed.

Lemma remove_sensor_reports_and_unregisters_witness :
  exists st' : State,
    remove_sensor "temp_1" (demo_state [demo_reading 20 0] []) = (st', Ok true)
    /\ readings (net st') !! "temp_1" = None
    /\ get_sensor_readings "temp_1" (Some 5) None None st'
       = (st', Raise (HTTPException 404 "Sensor with ID 'temp_1' not found")).
Proof.
  destruct (remove_sensor_reports_and_unregisters
              "temp_1" (demo_state [demo_reading 20 0] []))
    as (st' & removed & Hrun & Hreg & _).
  destruct Hreg as (-> & _ & _ & Hlog & Hquery).
  { exists demo_sensor. vm_compute. reflexivity. }
  exists st'. split; [exact Hrun|]. split; [exact Hlog|].
  apply Hquery. simpl. lia.
Defined.

(** C8 fails as stated: after a successful [remove_sensor], the readings
    query for that id raises (status 404); it does not return an empty
    result. *)
Lemma query_after_removal_is_an_error :
  exists st1 : State,
    remove_sensor "temp_1" (demo_state [demo_reading 20 0] []) = (st1, Ok true)
    /\ get_sensor_readings "temp_1" None None None st1
       = (st1, Raise (HTTPException 404 "Sensor with ID 'temp_1' not found"))
    /\ ~ (exists (st2 : State) (resp : SensorDataResponse),
            get_sensor_readings "temp_1" None None None st1 = (st2, Ok resp)
            /\ resp_readings resp = []).
Proof.
  eexists. split; [vm_compute; reflexivity|].
  assert (Hq : forall st1, st1 = fst (remove_sensor "temp_1" (demo_state [demo_reading 20 0] [])) ->
            get_sensor_readings "temp_1" None None None st1
            = (st1, Raise (HTTPException 404 "Sensor with ID 'temp_1' not found"))).
  { intros st1 ->. vm_compute. reflexivity. }
  split.
  - apply Hq. vm_compute. reflexivity.
  - intros (st2 & resp & Hok & _). rewrite Hq in Hok; [discriminate|].
    vm_compute. reflexivity.
Qed.

(* ===================================================================== *)
(** ** Querying the readings                                              *)
(* ===================================================================== *)

Lemma py_slice_from_last {A : Type} (xs : list A) (k : Z) :
  1 <= k -> py_slice_from xs (- k) = last_n (Z.to_nat k) xs.
Proof.
  intros Hk. unfold py_slice_from, last_n. cbv zeta.
  destruct (Z.ltb_spec (- k) 0) as [_|Hge]; [|lia].
  f_equal. lia.
Qed.

Lemma filter_all {A : Type} (P : A -> Prop) `{!forall x, Decision (P x)} (xs : list A) :
  (forall x, P x) -> filter P xs = xs.
Proof.
  intros HP. induction xs as [|x xs IH]; [reflexivity|].
  rewrite filter_cons_True by apply HP. rewrite IH. reflexivity.
Qed.

(** The two optional filters of [get_sensor_readings], applied in turn,
    select the readings in the range. *)
Lemma time_filters_matching (start_time end_time : option datetime)
    (log : list SensorReading) :
  match end_time with
  | Some t => filter (fun r => timestamp r <= t)
  | None => fun rs => rs
  end (match start_time with
       | Some t => filter (fun r => t <= timestamp r) log
       | None => log
       end)
  = matching start_time end_time log.
Proof.
  unfold matching. destruct start_time as [s|], end_time as [e|].
  - rewrite list_filter_filter. apply list_filter_iff.
    intros r. unfold in_range. tauto.
  - apply list_filter_iff. intros r. unfold in_range. tauto.
  - apply list_filter_iff. intros r. unfold in_range. tauto.
  - symmetry. apply filter_all. intros r. unfold in_range. tauto.
Qed.

(** What [get_sensor_readings] answers for a registered sensor and a limit
    in range: the last [k] readings of the log that fall in the range. *)
Lemma get_sensor_readings_registered (id : string) (limit : option Z)
    (start_time end_time : option datetime) (st : State) (sensor : Sensor) :
  sensors (net st) !! id = Some sensor ->
  1 <= default default_limit limit <= 1000 ->
  get_sensor_readings id limit start_time end_time st
  = (st, Ok {| resp_sensor := sensor;
               resp_readings :=
                 map reading_response
                   (last_n (Z.to_nat (default default_limit limit))
                      (matching start_time end_time
                         (default [] (readings (net st) !! id)))) |}).
Proof.
  intros Hs [Hlo Hhi].
  unfold get_sensor_readings, bind, check_limit, get_self.
  pose proof Hlo as Hlo'. pose proof Hhi as Hhi'.
  apply Z.leb_le in Hlo', Hhi'. rewrite Hlo', Hhi'. cbn [andb]. unfold ret.
  rewrite Hs. do 3 f_equal.
  rewrite py_slice_from_last by exact Hlo. f_equal.
  rewrite <- time_filters_matching. destruct start_time, end_time; reflexivity.
Qed.




(* ===================================================================== *)
(** ** The transition table: what an evaluation keeps and changes         *)
(* ===================================================================== *)

Lemma transition_config (a : Alert) (met : bool) (now : datetime) :
  alert_config (transition a met now) = alert_config a.
Proof.
  unfold transition.
  destruct (met && negb (triggered a) && cooldown_ok a now); [reflexivity|].
  destruct (negb met && triggered a); reflexivity.
Qed.

Lemma transition_last_triggered (a : Alert) (met : bool) (now : datetime) :
  last_triggered (transition a met now)
  = if fires a met now then Some now else last_triggered a.
Proof.
  unfold transition, fires.
  destruct (met && negb (triggered a) && cooldown_ok a now); [reflexivity|].
  destruct (negb met && triggered a); reflexivity.
Qed.

Lemma transition_triggered (a : Alert) (met : bool) (now : datetime) :
  triggered (transition a met now) = met && (triggered a || cooldown_ok a now).
Proof.
  unfold transition.
  destruct met, (triggered a) eqn:Htr, (cooldown_ok a now); cbn; try rewrite Htr;
    reflexivity.
Qed.


(** X1. One evaluation is one step of the transition table: for an alert on
    the reading's sensor whose field the reading has and whose comparison
    gives [met], the evaluation returns normally, replaces the alert by its
    transition at the current clock reading, leaves the other alerts alone,
    reads the clock once, and invokes all the actions, in order, exactly
    when the guard [fires] holds (none otherwise). *)
Theorem process_alert_refines_transition
    (id : string) (reading : SensorReading) (i : nat) (st : State)
    (a : Alert) (v : pyval) (met : bool) :
  alerts (net st) !! i = Some a ->
  applicable id reading a = Some v ->
  condition_met (condition a) v = Ok met ->
  let now := clock st (ticks st) in
  exists (st' : State) (evs : list event),
    process_alert id reading i st = (st', Ok tt)
    /\ alerts (net st') = <[i := transition a met now]> (alerts (net st))
    /\ (forall j : nat, j <> i -> alerts (net st') !! j = alerts (net st) !! j)
    /\ trace st' = (trace st ++ evs)%list
    /\ calls evs = (if fires a met now then map action_name (actions a) else [])
    /\ ticks st' = S (ticks st).
Proof.
  intros Hl Happ Hm now. unfold applicable in Happ.
  destruct (decide (cond_sensor_id (condition a) = id)) as [Hs|Hs]; [|discriminate].
  assert (Hother : forall (x : Alert) (l' : list Alert),
             l' = <[i := x]> (alerts (net st)) ->
             forall j : nat, j <> i -> l' !! j = alerts (net st) !! j).
  { intros x l' -> j Hj. apply list_lookup_insert_ne. congruence. }
  unfold transition, fires. fold now.
  destruct (met && negb (triggered a) && cooldown_ok a now) eqn:H1.
  - apply andb_true_iff in H1 as [H1 Hcd]. apply andb_true_iff in H1 as [-> Htr].
    apply negb_true_iff in Htr.
    rewrite (process_alert_trigger id reading i st a v Hl Hs Happ Hm Htr Hcd).
    eexists _, _. split; [reflexivity|]. split; [reflexivity|].
    split; [eapply Hother; reflexivity|]. split; [reflexivity|].
    split; [|reflexivity].
    rewrite calls_app, calls_action_events. simpl. apply app_nil_r.
  - destruct (negb met && triggered a) eqn:H2.
    + apply andb_true_iff in H2 as [Hmet Htr]. apply negb_true_iff in Hmet. subst met.
      rewrite (process_alert_clear id reading i st a v Hl Hs Happ Hm Htr).
      eexists _, _. split; [reflexivity|]. split; [reflexivity|].
      split; [eapply Hother; reflexivity|]. split; [reflexivity|].
      split; reflexivity.
    + rewrite (process_alert_idle id reading i st a v Hl Hs Happ met Hm H1 H2).
      exists (tick st), []. split; [reflexivity|]. cbn [tick net clock ticks trace].
      split; [symmetry; apply list_insert_id; exact Hl|].
      split; [reflexivity|]. rewrite app_nil_r. repeat split.
Qed.

Lemma process_alert_refines_transition_witness :
  exists st' : State,
    process_alert "temp_1" (demo_reading 20 0) 0 (demo_state [] [demo_alert true (Some 0)])
    = (st', Ok tt)
    /\ alerts (net st') = [demo_alert false (Some 0)]
    /\ calls (trace st') = [].
Proof.
  destruct (process_alert_refines_transition
              "temp_1" (demo_reading 20 0) 0 (demo_state [] [demo_alert true (Some 0)])
              (demo_alert true (Some 0)) (PFloat 20) false
              eq_refl ltac:(vm_compute; reflexivity) ltac:(vm_compute; reflexivity))
    as (st' & evs & Hrun & Hal & _ & Htrace & Hcalls & _).
  exists st'. split; [exact Hrun|]. split.
  - rewrite Hal. reflexivity.
  - rewrite Htrace. exact Hcalls.
Defined.

(** The loop of [_process_alerts] from index [length done] on, with its
    result. *)
Lemma for_each_process_alert_outcome id reading (rest : list Alert) :
  forall (done : list Alert) (st : State),
    alerts (net st) = (done ++ rest)%list ->
    exists st' : State,
      for_each (seq (length done) (length rest)) (process_alert id reading) st
      = (st', pass_result (first_error id reading rest))
      /\ alerts (net st')
         = (done ++ evaluated_alerts id reading (clock st) (ticks st) rest)%list.
Proof.
  induction rest as [|a rest IH]; intros done st Hal.
  - exists st. split; [reflexivity|]. exact Hal.
  - assert (Hl : alerts (net st) !! length done = Some a).
    { rewrite Hal. apply list_lookup_middle. reflexivity. }
    cbn [length seq for_each evaluated_alerts first_error]. unfold bind at 1.
    destruct (applicable id reading a) as [v|] eqn:Happ.
    + destruct (condition_met (condition a) v) as [met|e] eqn:Hm.
      * destruct (process_alert_step id reading _ st a v met Hl Happ Hm)
          as (st1 & -> & Hal1 & Hc & Ht).
        destruct (IH (done ++ [transition a met (clock st (ticks st))])%list st1)
          as (st' & Hrun & Hal').
        { rewrite Hal1, Hal, <- app_assoc. cbn [app].
          rewrite insert_app_r_alt by lia. rewrite Nat.sub_diag. reflexivity. }
        rewrite length_app in Hrun. cbn [length] in Hrun.
        replace (length done + 1)%nat with (S (length done)) in Hrun by lia.
        exists st'. split; [exact Hrun|].
        rewrite Hal', Hc, Ht, <- app_assoc. reflexivity.
      * unfold applicable in Happ.
        destruct (decide (cond_sensor_id (condition a) = id)) as [Hs|Hs];
          [|discriminate].
        rewrite (process_alert_raises id reading _ st a v Hl Hs Happ e Hm).
        exists st. split; [reflexivity|]. exact Hal.
    + destruct (process_alert_skip id reading _ st a Hl Happ)
        as (st1 & -> & Hn & Hc & Ht).
      destruct (IH (done ++ [a])%list st1) as (st' & Hrun & Hal').
      { rewrite Hn, Hal, <- app_assoc. reflexivity. }
      rewrite length_app in Hrun. cbn [length] in Hrun.
      replace (length done + 1)%nat with (S (length done)) in Hrun by lia.
      exists st'. split; [exact Hrun|].
      rewrite Hal', Hc, Ht, <- app_assoc. reflexivity.
Qed.

(** The pass of [_process_alerts], for the proofs below. *)
Lemma process_alerts_pass (id : string) (reading : SensorReading) (st : State) :
  exists st' : State,
    process_alerts id reading st
    = (st', pass_result (first_error id reading (alerts (net st))))
    /\ alerts (net st')
       = evaluated_alerts id reading (clock st) (ticks st) (alerts (net st)).
Proof.
  unfold process_alerts, bind, get_self.
  apply (for_each_process_alert_outcome id reading (alerts (net st)) [] st).
  reflexivity.
Qed.

(** X2. [_process_alerts] is one pass of the transition table over the
    alerts, in list order: every alert on the sensor whose field the reading
    has moves by the table at its own clock reading, every other alert is
    kept, and the pass stops with the exception of the first alert whose
    comparison raises, leaving that alert and all later ones as they were;
    it returns normally exactly when no comparison raises. *)
Theorem process_alerts_is_one_pass (id : string) (reading : SensorReading) (st : State) :
  exists st' : State,
    process_alerts id reading st
    = (st', pass_result (first_error id reading (alerts (net st))))
    /\ alerts (net st')
       = evaluated_alerts id reading (clock st) (ticks st) (alerts (net st)).
Proof.
  destruct (process_alerts_pass id reading st) as (st' & Hrun & Hal).
  exists st'. split; [exact Hrun | exact Hal].
Qed.

Lemma evaluated_alerts_config id reading time (l : list Alert) :
  forall n : nat,
    map alert_config (evaluated_alerts id reading time n l) = map alert_config l.
Proof.
  induction l as [|a l IH]; intros n; [reflexivity|].
  cbn [evaluated_alerts].
  destruct (applicable id reading a) as [v|].
  - destruct (condition_met (condition a) v) as [met|e]; [|reflexivity].
    cbn [map]. rewrite transition_config, IH. reflexivity.
  - cbn [map]. rewrite IH. reflexivity.
Qed.

(** X3. Alert evaluation only ever assigns [triggered] and
    [last_triggered]: after [_process_alerts], whether it returns or raises,
    the alerts are the same in number and order, each with its id, name,
    condition, actions and cooldown, and the sensors, the reading store and
    the [running] flag are untouched. *)
Theorem process_alerts_keeps_configuration
    (id : string) (reading : SensorReading) (st : State) :
  let st' := fst (process_alerts id reading st) in
  map alert_config (alerts (net st')) = map alert_config (alerts (net st))
  /\ sensors (net st') = sensors (net st)
  /\ readings (net st') = readings (net st)
  /\ running (net st') = running (net st).
Proof.
  intros st'. subst st'.
  destruct (process_alerts_pass id reading st) as (st1 & Hrun & Hal).
  pose proof (process_alerts_same_store id reading st st1 _ Hrun) as (Hs & Hr & Hrn & _).
  rewrite Hrun. cbn [fst]. rewrite Hal, evaluated_alerts_config. auto.
Qed.

Lemma evaluated_alerts_app id reading time (done l : list Alert) :
  forall n : nat,
    first_error id reading done = None ->
    evaluated_alerts id reading time n (done ++ l)
    = (evaluated_alerts id reading time n done
       ++ evaluated_alerts id reading time (n + clock_reads id reading done) l)%list.
Proof.
  induction done as [|a done IH]; intros n Hok.
  - cbn. rewrite Nat.add_0_r. reflexivity.
  - cbn [app evaluated_alerts first_error clock_reads] in *.
    destruct (applicable id reading a) as [v|].
    + destruct (condition_met (condition a) v) as [met|e]; [|discriminate].
      rewrite IH by exact Hok. cbn [app]. do 3 f_equal. lia.
    + rewrite IH by exact Hok. reflexivity.
Qed.

Lemma first_error_app id reading (done l : list Alert) :
  first_error id reading done = None ->
  first_error id reading (done ++ l) = first_error id reading l.
Proof.
  induction done as [|a done IH]; intros Hok; [reflexivity|].
  cbn [app first_error] in *.
  destruct (applicable id reading a) as [v|]; [|auto].
  destruct (condition_met (condition a) v); [auto | discriminate].
Qed.

Lemma evaluated_alerts_length id reading time (l : list Alert) (n : nat) :
  length (evaluated_alerts id reading time n l) = length l.
Proof.
  rewrite <- (length_map alert_config), evaluated_alerts_config.
  apply length_map.
Qed.

(** X4. An alert whose comparison raises (a field that holds a string, a
    list threshold under [gt]) stops the pass: [_process_alerts] raises that
    exception, and the raising alert and every alert after it in the list
    are left exactly as they were, whatever their conditions; only the
    alerts before it have been evaluated. *)
Theorem raising_alert_blocks_later_alerts
    (id : string) (reading : SensorReading) (st : State)
    (done rest : list Alert) (a : Alert) (v : pyval) (e : exn) :
  alerts (net st) = (done ++ a :: rest)%list ->
  first_error id reading done = None ->
  applicable id reading a = Some v ->
  condition_met (condition a) v = Raise e ->
  exists st' : State,
    process_alerts id reading st = (st', Raise e)
    /\ alerts (net st')
       = (evaluated_alerts id reading (clock st) (ticks st) done ++ a :: rest)%list
    /\ drop (length done) (alerts (net st')) = a :: rest.
Proof.
  intros Hal Hdone Happ Hm.
  destruct (process_alerts_pass id reading st) as (st' & Hrun & Hal').
  exists st'. rewrite Hal in Hrun, Hal'.
  rewrite first_error_app in Hrun by exact Hdone.
  rewrite evaluated_alerts_app in Hal' by exact Hdone.
  cbn [first_error evaluated_alerts] in Hrun, Hal'. rewrite Happ, Hm in Hrun, Hal'.
  split; [exact Hrun|]. split; [exact Hal'|].
  rewrite Hal'. rewrite drop_app_length'; [reflexivity|].
  symmetry. apply evaluated_alerts_length.
Qed.

Lemma raising_alert_blocks_later_alerts_witness :
  exists st' : State,
    process_alerts "temp_1" (demo_reading 26 0)
                   (demo_state [] [unit_alert; demo_alert false None])
    = (st', Raise TypeError)
    /\ alerts (net st') = [unit_alert; demo_alert false None].
Proof.
  destruct (raising_alert_blocks_later_alerts
              "temp_1" (demo_reading 26 0)
              (demo_state [] [unit_alert; demo_alert false None])
              [] [demo_alert false None] unit_alert (PStr "C") TypeError
              eq_refl eq_refl ltac:(vm_compute; reflexivity)
              ltac:(vm_compute; reflexivity))
    as (st' & Hrun & Hal & _).
  exists st'. split; [exact Hrun | exact Hal].
Defined.

(* ===================================================================== *)
(** ** Hysteresis and cooldown over a sequence of evaluations             *)
(* ===================================================================== *)

Lemma spaced_weaken (cd : Z) (t : datetime) (times : list datetime) :
  spaced cd (Some t) times -> spaced cd None times.
Proof. destruct times; cbn; tauto. Qed.





(* ===================================================================== *)
(** ** The polling cycle, case by case                                    *)
(* ===================================================================== *)

(** A cycle that obtains a reading for a sensor that has a log. *)
Lemma poll_cycle_reading (sensor : Sensor) (reading : SensorReading)
    (log : list SensorReading) (st : State) :
  readings (net st) !! sensor_id sensor = Some log ->
  exists st' : State,
    poll_cycle sensor (Reads (Some reading)) st = (st', Ok tt)
    /\ readings (net st')
       = <[sensor_id sensor := (log ++ [reading])%list]> (readings (net st))
    /\ sensors (net st') = sensors (net st)
    /\ running (net st') = running (net st)
    /\ alerts (net st')
       = evaluated_alerts (sensor_id sensor) reading (clock st) (ticks st)
                          (alerts (net st))
    /\ (forall e : exn,
          first_error (sensor_id sensor) reading (alerts (net st)) = Some e ->
          exists evs : list event,
            trace st' = (evs ++ [Logged (PollError (sensor_name sensor) e);
                                 Slept (sensor_update_interval sensor)])%list).
Proof.
  intros Hlog.
  unfold poll_cycle, bind at 1, try_except.
  unfold bind at 1. cbn [sensor_read]. unfold ret at 1.
  unfold bind at 1, append_reading. unfold bind at 1, get_self at 1.
  rewrite Hlog. unfold update_self at 1.
  set (st1 := {| net := _; clock := clock st; ticks := ticks st; trace := trace st |}).
  unfold bind at 1.
  destruct (process_alerts_pass (sensor_id sensor) reading st1)
    as (st2 & Hrun & Hal).
  pose proof (process_alerts_same_store _ _ _ _ _ Hrun) as (Hs & Hr & Hrn & _).
  rewrite Hrun.
  assert (Hlog2 : readings (net st2) !! sensor_id sensor = Some (log ++ [reading])%list).
  { rewrite Hr. subst st1. simpl. apply lookup_insert_eq. }
  assert (Hal1 : alerts (net st1) = alerts (net st)) by reflexivity.
  rewrite Hal1 in *.
  destruct (first_error (sensor_id sensor) reading (alerts (net st))) as [e|];
    cbn [pass_result].
  - unfold logger, emit; cbn [net clock ticks trace].
    eexists. split; [reflexivity|]. cbn [net trace]. rewrite Hs, Hr, Hrn, Hal.
    subst st1. cbn [net sensors readings running set_readings clock ticks].
    repeat split. intros e' [= <-]. exists (trace st2).
    rewrite <- app_assoc. reflexivity.
  - unfold bind at 1, get_self. rewrite Hlog2.
    destruct (Nat.eqb _ _); unfold logger, emit; cbn [net clock ticks trace];
      (eexists; split; [reflexivity|]); cbn [net trace]; rewrite Hs, Hr, Hrn, Hal;
      subst st1; cbn [net sensors readings running set_readings clock ticks];
      repeat split; discriminate.
Qed.

(** X7. A reading is stored before the alerts are evaluated: when the
    evaluation raises, the cycle still returns normally, the reading stays
    at the end of the sensor's log, and the error is the last thing logged
    before the sleep. *)
Theorem poll_cycle_keeps_reading_when_alerts_raise
    (sensor : Sensor) (reading : SensorReading) (log : list SensorReading)
    (st : State) (e : exn) :
  readings (net st) !! sensor_id sensor = Some log ->
  first_error (sensor_id sensor) reading (alerts (net st)) = Some e ->
  exists (st' : State) (evs : list event),
    poll_cycle sensor (Reads (Some reading)) st = (st', Ok tt)
    /\ readings (net st') !! sensor_id sensor = Some (log ++ [reading])%list
    /\ trace st' = (evs ++ [Logged (PollError (sensor_name sensor) e);
                            Slept (sensor_update_interval sensor)])%list.
Proof.
  intros Hlog Herr.
  destruct (poll_cycle_reading sensor reading log st Hlog)
    as (st' & Hrun & Hr & _ & _ & _ & Hlogged).
  destruct (Hlogged e Herr) as [evs Hevs].
  exists st', evs. split; [exact Hrun|]. split; [|exact Hevs].
  rewrite Hr. apply lookup_insert_eq.
Qed.

Lemma poll_cycle_keeps_reading_when_alerts_raise_witness :
  exists (st' : State) (evs : list event),
    poll_cycle demo_sensor (Reads (Some (demo_reading 26 0)))
               (demo_state [] [unit_alert; demo_alert false None])
    = (st', Ok tt)
    /\ readings (net st') !! "temp_1" = Some [demo_reading 26 0]
    /\ trace st' = (evs ++ [Logged (PollError "Living Room" TypeError); Slept 1])%list.
Proof.
  apply (poll_cycle_keeps_reading_when_alerts_raise
           demo_sensor (demo_reading 26 0) []
           (demo_state [] [unit_alert; demo_alert false None]) TypeError).
  - vm_compute. reflexivity.
  - vm_compute. reflexivity.
Defined.

(** A cycle for a sensor without a log leaves the network as it is. *)
Lemma poll_cycle_without_log_drops_reading_aux
    (sensor : Sensor) (reading : SensorReading) (st : State) :
  readings (net st) !! sensor_id sensor = None ->
  exists st' : State,
    poll_cycle sensor (Reads (Some reading)) st = (st', Ok tt) /\ net st' = net st.
Proof.
  intros Hnone.
  unfold poll_cycle, try_except, sensor_read, append_reading, get_self, ret, bind.
  cbv beta. cbn [net]. rewrite Hnone. unfold raise, logger, emit.
  cbn [net clock ticks trace]. eexists. split; reflexivity.
Qed.

(** X8. The log of a sensor is not created on demand: a cycle for a sensor
    that has no log (it was removed, or never added) drops the reading; the
    [KeyError] is caught and logged, the network is unchanged and no alert
    is evaluated. *)
Theorem poll_cycle_without_log_drops_reading
    (sensor : Sensor) (reading : SensorReading) (st : State) :
  readings (net st) !! sensor_id sensor = None ->
  exists st' : State,
    poll_cycle sensor (Reads (Some reading)) st = (st', Ok tt)
    /\ net st' = net st
    /\ ticks st' = ticks st
    /\ trace st'
       = (trace st ++ [Logged (PollError (sensor_name sensor)
                                         (KeyError (sensor_id sensor)));
                       Slept (sensor_update_interval sensor)])%list.
Proof.
  intros Hnone.
  unfold poll_cycle, try_except, sensor_read, append_reading, get_self, ret, bind.
  cbv beta. cbn [net]. rewrite Hnone. unfold raise, logger, emit.
  cbn [net clock ticks trace].
  eexists. split; [reflexivity|]. cbn [net ticks trace].
  rewrite <- app_assoc. repeat split.
Qed.

Lemma poll_cycle_without_log_drops_reading_witness :
  exists st' : State,
    poll_cycle other_sensor (Reads (Some (demo_reading 26 0)))
               (fst (remove_sensor "temp_1" (demo_state [demo_reading 20 0] [])))
    = (st', Ok tt)
    /\ readings (net st') !! "temp_1" = None.
Proof.
  destruct (poll_cycle_without_log_drops_reading
              other_sensor (demo_reading 26 0)
              (fst (remove_sensor "temp_1" (demo_state [demo_reading 20 0] [])))
              ltac:(vm_compute; reflexivity))
    as (st' & Hrun & Hnet & _).
  exists st'. split; [exact Hrun|]. rewrite Hnet. vm_compute. reflexivity.
Defined.

(* ===================================================================== *)
(** ** Deleting and creating alerts through the API                       *)
(* ===================================================================== *)

Lemma list_find_first {A : Type} (P : A -> Prop) `{!forall x, Decision (P x)}
    (pre post : list A) (a : A) :
  P a -> Forall (fun b => ~ P b) pre ->
  list_find P (pre ++ a :: post) = Some (length pre, a).
Proof.
  intros Ha Hpre. apply list_find_Some. split; [|split].
  - apply list_lookup_middle. reflexivity.
  - exact Ha.
  - intros j y Hj Hlt. rewrite lookup_app_l in Hj by exact Hlt.
    rewrite Forall_forall in Hpre. apply Hpre.
    apply list_elem_of_lookup. eauto.
Qed.

Lemma list_find_none {A : Type} (P : A -> Prop) `{!forall x, Decision (P x)}
    (l : list A) :
  Forall (fun b => ~ P b) l -> list_find P l = None.
Proof. intros Hnone. apply list_find_None. exact Hnone. Qed.

(** X9. [delete_alert] removes exactly one alert, the first in the list
    with the given id, and keeps the others in order (a later alert with
    the same id stays); when no alert has the id it answers 404 and changes
    nothing. Sensors, readings and the trace are untouched either way. *)
Theorem delete_alert_removes_first_match (id : string) (st : State) :
  (forall (pre post : list Alert) (a : Alert),
      alerts (net st) = (pre ++ a :: post)%list ->
      alert_id a = id ->
      Forall (fun b => alert_id b <> id) pre ->
      delete_alert id st = (with_alerts (pre ++ post)%list st, Ok tt))
  /\ (Forall (fun b => alert_id b <> id) (alerts (net st)) ->
      delete_alert id st
      = (st, Raise (HTTPException 404 ("Alert with ID '" +:+ id +:+ "' not found")))).
Proof.
  split.
  - intros pre post a Hal Ha Hpre. unfold delete_alert, bind, get_self.
    rewrite Hal.
    rewrite (list_find_first (fun b => alert_id b = id) pre post a Ha Hpre).
    unfold update_self, with_alerts. rewrite Hal, delete_middle. reflexivity.
  - intros Hnone. unfold delete_alert, bind, get_self.
    rewrite (list_find_none (fun b => alert_id b = id) _ Hnone). reflexivity.
Qed.

Lemma delete_alert_removes_first_match_witness :
  delete_alert "alert_1"
               (demo_state [] [unit_alert; demo_alert false None; demo_alert true (Some 0)])
  = (demo_state [] [unit_alert; demo_alert true (Some 0)], Ok tt).
Proof.
  destruct (delete_alert_removes_first_match
              "alert_1"
              (demo_state [] [unit_alert; demo_alert false None; demo_alert true (Some 0)]))
    as [Hdel _].
  apply (Hdel [unit_alert] [demo_alert true (Some 0)] (demo_alert false None)).
  - reflexivity.
  - reflexivity.
  - repeat constructor. discriminate.
Defined.

(** X10. [create_alert] changes the network only when it succeeds. An
    unknown sensor is answered with 404 (also when the operator is invalid
    too), a known sensor with an operator outside the list with 400, both
    with the state unchanged; otherwise it returns normally with exactly one
    alert more. Status 500 is never produced. *)
Theorem create_alert_outcome (req : CreateAlertRequest) (st : State) :
  match create_alert req st with
  | (st', Ok _) =>
      is_Some (sensors (net st) !! req_sensor_id req)
      /\ (req_operator req ∈ valid_operators)
      /\ length (alerts (net st')) = S (length (alerts (net st)))
  | (st', Raise e) =>
      st' = st
      /\ ((sensors (net st) !! req_sensor_id req = None
           /\ e = HTTPException 404
                    ("Sensor with ID '" +:+ req_sensor_id req +:+ "' not found"))
          \/ (is_Some (sensors (net st) !! req_sensor_id req)
              /\ (req_operator req ∉ valid_operators)
              /\ exists detail : string, e = HTTPException 400 detail))
  end.
Proof.
  destruct (sensors (net st) !! req_sensor_id req) as [sensor|] eqn:Hs.
  - destruct (decide (req_operator req ∈ valid_operators)) as [Hop|Hop].
    + destruct (create_alert_accepts req st sensor Hs Hop) as (st' & resp & -> & Hal).
      split; [eauto|]. split; [exact Hop|].
      rewrite Hal, length_app. cbn. lia.
    + unfold create_alert, bind, get_self. rewrite Hs.
      destruct (decide (Some sensor = None)) as [Hn|_]; [discriminate|].
      destruct (decide (req_operator req ∉ valid_operators)) as [_|Hn];
        [|contradiction].
      cbn. split; [reflexivity|]. right. split; [eauto|]. split; [exact Hop|].
      eexists. reflexivity.
  - unfold create_alert, bind, get_self. rewrite Hs.
    destruct (decide (None = None)) as [_|Hn]; [|contradiction].
    cbn. split; [reflexivity|]. left. split; reflexivity.
Qed.

Lemma sequential_ids_fresh (l : list Alert) :
  map alert_id l = sequential_ids (length l) ->
  Forall (fun b => alert_id b <> "alert_" +:+ pretty (length l + 1)%nat) l.
Proof.
  intros Hids. apply Forall_forall. intros b Hb Heq.
  apply list_elem_of_In in Hb. apply (in_map alert_id) in Hb.
  rewrite Hids, Heq in Hb. unfold sequential_ids in Hb.
  apply in_map_iff in Hb as (k & Hk & Hin). apply in_seq in Hin.
  injection Hk as Hk. apply pretty_nat_inj in Hk. lia.
Qed.

(** What [create_alert] does once its two checks have passed. *)
Lemma create_alert_lookup (req : CreateAlertRequest) (st : State) (sensor : Sensor) :
  sensors (net st) !! req_sensor_id req = Some sensor ->
  req_operator req ∈ valid_operators ->
  let alert := new_alert (length (alerts (net st))) (sensor_name sensor)
                 (req_sensor_id req) (req_field req) (req_operator req)
                 (req_value req) [("log", log_alert_action)] (req_name req)
                 (req_cooldown req) in
  let st' := {| net := set_alerts (alerts (net st) ++ [alert])%list (net st);
                clock := clock st; ticks := ticks st;
                trace := (trace st ++ [Logged (AlertCreated (alert_name alert))])%list |} in
  create_alert req st
  = match list_find (fun a => alert_id a = alert_id alert)
                    (alerts (net st) ++ [alert])%list with
    | Some (_, found) => (st', Ok (alert_response found))
    | None => (st', Raise (HTTPException 500
                             "Alert was created but could not be retrieved"))
    end.
Proof.
  intros Hs Hop. unfold create_alert, bind at 1, get_self at 1.
  destruct (decide (sensors (net st) !! req_sensor_id req = None)) as [Hn|_];
    [congruence|].
  destruct (decide (req_operator req ∉ valid_operators)) as [Hn|_]; [contradiction|].
  unfold bind at 1, try_except.
  rewrite (add_alert_registered _ _ _ _ _ _ _ st sensor Hs).
  cbv zeta. unfold bind at 1, get_self. cbn [net alerts set_alerts].
  destruct (list_find _ _) as [[j found]|]; reflexivity.
Qed.

(** X11. While the alert ids are the sequential ones (no alert was ever
    deleted), [create_alert] answers with the alert it has just created:
    the response carries the new id and echoes the sensor, field, operator
    and threshold of the request, untriggered; [list_alerts] then ends with
    this same response. *)
Theorem create_alert_answers_with_new_alert
    (req : CreateAlertRequest) (st : State) (sensor : Sensor) :
  sensors (net st) !! req_sensor_id req = Some sensor ->
  req_operator req ∈ valid_operators ->
  map alert_id (alerts (net st)) = sequential_ids (length (alerts (net st))) ->
  exists (st' : State) (resp : AlertResponse),
    create_alert req st = (st', Ok resp)
    /\ ar_id resp = "alert_" +:+ pretty (length (alerts (net st)) + 1)%nat
    /\ ar_sensor_id resp = req_sensor_id req
    /\ ar_field resp = req_field req
    /\ ar_operator resp = req_operator req
    /\ ar_value resp = req_value req
    /\ ar_triggered resp = false
    /\ ar_last_triggered resp = None
    /\ list_alerts st'
       = (st', Ok (map alert_response (alerts (net st)) ++ [resp])%list).
Proof.
  intros Hs Hop Hids.
  rewrite (create_alert_lookup req st sensor Hs Hop). cbv zeta.
  rewrite (list_find_first _ (alerts (net st)) []);
    [|reflexivity|apply sequential_ids_fresh; exact Hids].
  eexists _, _. split; [reflexivity|]. repeat (split; [reflexivity|]).
  unfold list_alerts, bind, get_self, ret. cbn [net alerts set_alerts].
  rewrite map_app. reflexivity.
Qed.

Lemma create_alert_answers_with_new_alert_witness :
  exists (st' : State) (resp : AlertResponse),
    create_alert (request "between" (TList [18; 26]%Q))
                 (demo_state [] [demo_alert false None])
    = (st', Ok resp)
    /\ ar_id resp = "alert_2"
    /\ ar_value resp = TList [18; 26]%Q.
Proof.
  destruct (create_alert_answers_with_new_alert
              (request "between" (TList [18; 26]%Q))
              (demo_state [] [demo_alert false None]) demo_sensor
              ltac:(vm_compute; reflexivity)
              ltac:(apply (bool_decide_unpack ("between" ∈ valid_operators));
                    vm_compute; exact I)
              ltac:(vm_compute; reflexivity))
    as (st' & resp & Hrun & Hid & _ & _ & _ & Hval & _).
  exists st', resp. split; [exact Hrun|]. split; [|exact Hval].
  rewrite Hid. vm_compute. reflexivity.
Defined.

(** X12. When an alert already carries the id that [add_alert] hands out
    (possible after a deletion), [create_alert] still registers the new
    alert, but its lookup by id finds the older alert first: the response
    describes the older alert, not the one requested. *)
Theorem create_alert_answers_with_older_alert
    (req : CreateAlertRequest) (st : State) (sensor : Sensor)
    (pre post : list Alert) (older : Alert) :
  sensors (net st) !! req_sensor_id req = Some sensor ->
  req_operator req ∈ valid_operators ->
  alerts (net st) = (pre ++ older :: post)%list ->
  alert_id older = "alert_" +:+ pretty (length (alerts (net st)) + 1)%nat ->
  Forall (fun b => alert_id b <> alert_id older) pre ->
  exists st' : State,
    create_alert req st = (st', Ok (alert_response older))
    /\ length (alerts (net st')) = S (length (alerts (net st))).
Proof.
  intros Hs Hop Hal Hid Hpre.
  rewrite (create_alert_lookup req st sensor Hs Hop). cbv zeta.
  set (alert := new_alert (length (alerts (net st))) (sensor_name sensor)
                  (req_sensor_id req) (req_field req) (req_operator req)
                  (req_value req) [("log", log_alert_action)] (req_name req)
                  (req_cooldown req)).
  assert (Hida : alert_id alert = alert_id older) by (rewrite Hid; reflexivity).
  rewrite Hida.
  assert (Hsplit : (alerts (net st) ++ [alert])%list
                   = (pre ++ older :: (post ++ [alert]))%list).
  { rewrite Hal, <- app_assoc. reflexivity. }
  assert (Hfind : list_find (fun b => alert_id b = alert_id older)
                            (alerts (net st) ++ [alert])%list
                  = Some (length pre, older)).
  { rewrite Hsplit. apply list_find_first; [reflexivity | exact Hpre]. }
  rewrite Hfind.
  eexists. split; [reflexivity|]. cbn [net alerts set_alerts].
  rewrite length_app. cbn. lia.
Qed.

Lemma create_alert_answers_with_older_alert_witness :
  exists st' : State,
    create_alert (request "lt" (TFloat 5))
                 (fst (create_two_delete_first (demo_state [] [])))
    = (st', Ok {| ar_id := "alert_2"; ar_name := "Alert for Living Room.temperature";
                  ar_sensor_id := "temp_1"; ar_field := "temperature";
                  ar_operator := "lt"; ar_value := TFloat 10;
                  ar_triggered := false; ar_last_triggered := None |}).
Proof.
  destruct (create_alert_answers_with_older_alert
              (request "lt" (TFloat 5))
              (fst (create_two_delete_first (demo_state [] []))) demo_sensor
              [] []
              (new_alert 1 "Living Room" "temp_1" "temperature" "lt" (TFloat 10)
                         [] None 0)
              ltac:(vm_compute; reflexivity)
              ltac:(apply (bool_decide_unpack ("lt" ∈ valid_operators));
                    vm_compute; exact I)
              ltac:(vm_compute; reflexivity)
              ltac:(vm_compute; reflexivity)
              ltac:(constructor))
    as (st' & Hrun & _).
  exists st'. exact Hrun.
Defined.

(* ===================================================================== *)
(** ** The sensor registry and the read-only routes                       *)
(* ===================================================================== *)

(** X13. Registering and unregistering round trip: right after
    [add_sensor], [get_sensor] returns that very sensor and its readings
    query returns an empty history (also when the id was registered before
    with readings); after [remove_sensor] of the id, [get_sensor] answers
    404 and the sensors and logs are those of the original network without
    that id. *)
Theorem sensor_registry_round_trip (sensor : Sensor) (st : State) :
  let id := sensor_id sensor in
  let st1 := fst (add_sensor sensor st) in
  let st2 := fst (remove_sensor id st1) in
  get_sensor id st1 = (st1, Ok sensor)
  /\ get_sensor_readings id None None None st1
     = (st1, Ok {| resp_sensor := sensor; resp_readings := [] |})
  /\ remove_sensor id st1 = (st2, Ok true)
  /\ get_sensor id st2
     = (st2, Raise (HTTPException 404 ("Sensor with ID '" +:+ id +:+ "' not found")))
  /\ sensors (net st2) = delete id (sensors (net st))
  /\ readings (net st2) = delete id (readings (net st))
  /\ alerts (net st2) = alerts (net st).
Proof.
  intros id st1 st2.
  assert (Hs1 : sensors (net st1) = <[id := sensor]> (sensors (net st))).
  { subst st1. unfold add_sensor, bind, get_self.
    destruct (decide _); reflexivity. }
  assert (Hr1 : readings (net st1) = <[id := []]> (readings (net st))).
  { subst st1. unfold add_sensor, bind, get_self.
    destruct (decide _); reflexivity. }
  assert (Ha1 : alerts (net st1) = alerts (net st)).
  { subst st1. unfold add_sensor, bind, get_self.
    destruct (decide _); reflexivity. }
  assert (Hl1 : sensors (net st1) !! id = Some sensor).
  { rewrite Hs1. apply lookup_insert_eq. }
  assert (Hrem : remove_sensor id st1 = (st2, Ok true)
                 /\ sensors (net st2) = delete id (sensors (net st1))
                 /\ readings (net st2) = delete id (readings (net st1))
                 /\ alerts (net st2) = alerts (net st1)).
  { subst st2. unfold remove_sensor, bind, get_self.
    destruct (decide (is_Some (sensors (net st1) !! id))) as [_|Hn].
    - repeat split.
    - exfalso. apply Hn. eauto. }
  destruct Hrem as (Hrem & Hs2 & Hr2 & Ha2).
  split; [|split; [|split; [|split; [|split; [|split]]]]].
  - unfold get_sensor, bind, get_self. rewrite Hl1. reflexivity.
  - rewrite (get_sensor_readings_registered id None None None st1 sensor Hl1);
      [|unfold default_limit; simpl; lia].
    rewrite Hr1, lookup_insert_eq. reflexivity.
  - exact Hrem.
  - unfold get_sensor, bind, get_self. rewrite Hs2, lookup_delete_eq. reflexivity.
  - rewrite Hs2, Hs1. apply delete_insert_eq.
  - rewrite Hr2, Hr1. apply delete_insert_eq.
  - rewrite Ha2, Ha1. reflexivity.
Qed.

(** X14. The counts of [get_status] follow the registry: [add_sensor]
    raises the sensor count by one for a new id and keeps it for an id that
    is already registered (a replacement); [remove_sensor] lowers it by one
    for a registered id and keeps it otherwise; neither changes the alert
    count. *)
Theorem status_counts_follow_registry (sensor : Sensor) (id : string) (st : State) :
  snd (get_status st) = Ok {| status_name := net_name (net st);
                             status_running := running (net st);
                             sensor_count := size (sensors (net st));
                             alert_count := length (alerts (net st));
                             status_update_interval := update_interval (net st) |}
  /\ size (sensors (net (fst (add_sensor sensor st))))
     = (if decide (is_Some (sensors (net st) !! sensor_id sensor))
        then size (sensors (net st)) else S (size (sensors (net st))))
  /\ size (sensors (net (fst (remove_sensor id st))))
     = (if decide (is_Some (sensors (net st) !! id))
        then pred (size (sensors (net st))) else size (sensors (net st)))
  /\ length (alerts (net (fst (add_sensor sensor st)))) = length (alerts (net st))
  /\ length (alerts (net (fst (remove_sensor id st)))) = length (alerts (net st)).
Proof.
  split; [reflexivity|]. split; [|split; [|split]].
  - unfold add_sensor, bind, get_self.
    destruct (decide (is_Some (sensors (net st) !! sensor_id sensor))) as [[x Hx]|Hn];
      cbn [fst net sensors set_sensors set_readings update_self logger emit].
    + apply map_size_insert_Some. eauto.
    + apply map_size_insert_None. destruct (sensors (net st) !! sensor_id sensor) eqn:E;
        [exfalso; apply Hn; eauto | reflexivity].
  - unfold remove_sensor, bind, get_self.
    destruct (decide (is_Some (sensors (net st) !! id))) as [Hsome|Hn];
      cbn [fst net sensors set_sensors set_readings update_self logger emit ret].
    + rewrite map_size_delete_Some by exact Hsome. lia.
    + reflexivity.
  - unfold add_sensor, bind, get_self. destruct (decide _); reflexivity.
  - unfold remove_sensor, bind, get_self. destruct (decide _); reflexivity.
Qed.



(* ===================================================================== *)
(** ** Invariants of every history                                        *)
(* ===================================================================== *)

Lemma get_sensor_readings_read_only id limit start_time end_time (st : State) :
  fst (get_sensor_readings id limit start_time end_time st) = st.
Proof.
  unfold get_sensor_readings, bind, check_limit, get_self.
  destruct (Z.leb 1 _ && Z.leb _ 1000); [|reflexivity].
  unfold ret. destruct (sensors (net st) !! id); reflexivity.
Qed.

(** The effect of one call on the network. *)
Lemma exec_effect (c : api_call) (st : State) :
  store_step (net st) (net (exec c st))
  /\ alerts_step c (alerts (net st)) (alerts (net (exec c st))).
Proof.
  destruct c as [sensor|id|id fld op val acts name cd|req|id|sensor o
                 |id limit start_time end_time]; cbn [exec].
  - (* add_sensor *)
    unfold add_sensor, bind, get_self. split.
    + right. left. exists sensor. destruct (decide _); split; reflexivity.
    + left. destruct (decide _); reflexivity.
  - (* remove_sensor *)
    unfold remove_sensor, bind, get_self.
    destruct (decide (is_Some (sensors (net st) !! id))); split.
    + right. right. left. exists id. split; reflexivity.
    + left. reflexivity.
    + left. split; reflexivity.
    + left. reflexivity.
  - (* add_alert *)
    destruct (sensors (net st) !! id) as [sensor|] eqn:Hs.
    + rewrite (add_alert_registered _ _ _ _ _ _ _ st sensor Hs). cbv zeta.
      split; [left; split; reflexivity|].
      right. left. eexists _, _, _, _, _, _, _, _. reflexivity.
    + unfold add_alert, bind, get_self. rewrite Hs.
      split; [left; split; reflexivity | left; reflexivity].
  - (* create_alert *)
    destruct (sensors (net st) !! req_sensor_id req) as [sensor|] eqn:Hs.
    + destruct (decide (req_operator req ∈ valid_operators)) as [Hop|Hop].
      * rewrite (create_alert_lookup req st sensor Hs Hop). cbv zeta.
        destruct (list_find _ _) as [[j found]|]; cbn [fst net];
          (split; [left; split; reflexivity|]);
          right; left; eexists _, _, _, _, _, _, _, _; reflexivity.
      * unfold create_alert, bind, get_self. rewrite Hs.
        destruct (decide (Some sensor = None)) as [Hn|_]; [discriminate|].
        destruct (decide (req_operator req ∉ valid_operators)) as [_|Hn];
          [|contradiction].
        split; [left; split; reflexivity | left; reflexivity].
    + unfold create_alert, bind, get_self. rewrite Hs.
      destruct (decide (None = None)) as [_|Hn]; [|contradiction].
      split; [left; split; reflexivity | left; reflexivity].
  - (* delete_alert *)
    unfold delete_alert, bind, get_self.
    destruct (list_find _ _) as [[i found]|].
    + split; [left; split; reflexivity|].
      right. right. left. split; [reflexivity|]. exists i. reflexivity.
    + split; [left; split; reflexivity | left; reflexivity].
  - (* poll_cycle *)
    destruct o as [[reading|]|e].
    + destruct (readings (net st) !! sensor_id sensor) as [log|] eqn:Hlog.
      * destruct (poll_cycle_reading sensor reading log st Hlog)
          as (st' & -> & Hr & Hs & _ & Hal & _). cbn [fst]. split.
        -- right. right. right. exists (sensor_id sensor), log, reading. auto.
        -- right. right. right. eexists _, _, _, _. exact Hal.
      * destruct (poll_cycle_without_log_drops_reading_aux sensor reading st Hlog)
          as (st' & -> & Hn). cbn [fst]. rewrite Hn.
        split; [left; split; reflexivity | left; reflexivity].
    + destruct (poll_cycle_no_reading sensor (Reads None) st) as (st' & -> & Hn);
        [left; reflexivity|]. cbn [fst]. rewrite Hn.
      split; [left; split; reflexivity | left; reflexivity].
    + destruct (poll_cycle_no_reading sensor (ReadRaises e) st) as (st' & -> & Hn);
        [right; eexists; reflexivity|]. cbn [fst]. rewrite Hn.
      split; [left; split; reflexivity | left; reflexivity].
  - (* get_sensor_readings *)
    rewrite get_sensor_readings_read_only.
    split; [left; split; reflexivity | left; reflexivity].
Qed.

Lemma store_step_dom (n n' : SensorNetwork) :
  store_step n n' ->
  dom (sensors n) =@{gset string} dom (readings n) ->
  dom (sensors n') =@{gset string} dom (readings n').
Proof.
  intros [(-> & ->)|[(s & -> & ->)|[(id & -> & ->)|(id & log & r & Hlog & -> & ->)]]] Hdom.
  - exact Hdom.
  - rewrite !dom_insert_L, Hdom. reflexivity.
  - rewrite !dom_delete_L, Hdom. reflexivity.
  - rewrite dom_insert_L, Hdom.
    apply (elem_of_dom_2 (D := gset string)) in Hlog.
    symmetry. apply subseteq_union_1_L, singleton_subseteq_l. exact Hlog.
Qed.

Lemma exec_all_snoc (calls : list api_call) (c : api_call) (st : State) :
  exec_all (calls ++ [c]) st = exec c (exec_all calls st).
Proof. unfold exec_all. rewrite fold_left_app. reflexivity. Qed.

(** X16. No orphaned logs and no sensor without a log: after any sequence
    of calls on a fresh network (registrations, removals, alert creation and
    deletion, polling cycles of any sensor with any outcome, queries), an id
    has a reading log exactly when a sensor is registered under it. *)
Theorem every_sensor_has_a_log
    (calls : list api_call) (name : string) (interval : Q) (time : nat -> datetime) :
  let st := exec_all calls (fresh_state name interval time) in
  forall id : string,
    is_Some (sensors (net st) !! id) <-> is_Some (readings (net st) !! id).
Proof.
  intros st id. subst st.
  assert (Hdom : dom (sensors (net (exec_all calls (fresh_state name interval time))))
                 =@{gset string}
                 dom (readings (net (exec_all calls (fresh_state name interval time))))).
  { induction calls as [|c calls IH] using rev_ind.
    - cbn. rewrite !dom_empty_L. reflexivity.
    - rewrite exec_all_snoc.
      eapply store_step_dom; [apply exec_effect | exact IH]. }
  rewrite <- !elem_of_dom, Hdom. reflexivity.
Qed.

Lemma transition_well_formed (a : Alert) (met : bool) (now : datetime) :
  well_formed_alert a -> well_formed_alert (transition a met now).
Proof.
  intros [Hbuf Hlast]. split.
  - pose proof (transition_config a met now) as Hc. unfold alert_config in Hc.
    injection Hc as _ _ Hcond _ _. rewrite Hcond. exact Hbuf.
  - rewrite transition_triggered, transition_last_triggered. unfold fires.
    destruct met; [|discriminate]. cbn [andb].
    destruct (triggered a); cbn [negb orb andb].
    + intros _. auto.
    + intros ->. eauto.
Qed.

Lemma evaluated_alerts_well_formed id reading time (l : list Alert) :
  forall n : nat,
    Forall well_formed_alert l ->
    Forall well_formed_alert (evaluated_alerts id reading time n l).
Proof.
  induction l as [|a l IH]; intros n Hall; [constructor|].
  inversion Hall as [|x l' Ha Hl]; subst. cbn [evaluated_alerts].
  destruct (applicable id reading a) as [v|].
  - destruct (condition_met (condition a) v) as [met|e]; [|exact Hall].
    constructor; [apply transition_well_formed; exact Ha | apply IH; exact Hl].
  - constructor; [exact Ha | apply IH; exact Hl].
Qed.

Lemma alerts_step_well_formed (c : api_call) (l l' : list Alert) :
  alerts_step c l l' -> Forall well_formed_alert l -> Forall well_formed_alert l'.
Proof.
  intros [->|[Hnew|[[_ [i ->]]|(id & reading & time & n & ->)]]] Hall.
  - exact Hall.
  - destruct Hnew as (sname & id & fld & op & val & acts & name & cd & ->).
    apply Forall_app. split; [exact Hall|]. constructor; [|constructor].
    split; [reflexivity | discriminate].
  - apply Forall_delete. exact Hall.
  - apply evaluated_alerts_well_formed. exact Hall.
Qed.

Lemma exec_all_well_formed
    (calls : list api_call) (name : string) (interval : Q) (time : nat -> datetime) :
  Forall well_formed_alert (alerts (net (exec_all calls (fresh_state name interval time)))).
Proof.
  induction calls as [|c calls IH] using rev_ind.
  - constructor.
  - rewrite exec_all_snoc.
    eapply alerts_step_well_formed; [apply exec_effect | exact IH].
Qed.

(** X17. In every state a history can reach, a triggered alert has a
    [last_triggered] time, and every alert has comparison buffer 0 (no call
    ever sets another one), so that an [eq] alert with threshold [t] is met
    by a number [v] exactly when [v = t] and a [neq] alert exactly when
    [v <> t]: the tolerance of the equality operators is never in effect. *)
Theorem reachable_alerts_are_well_formed
    (calls : list api_call) (name : string) (interval : Q) (time : nat -> datetime)
    (a : Alert) :
  let st := exec_all calls (fresh_state name interval time) in
  In a (alerts (net st)) ->
  (triggered a = true -> is_Some (last_triggered a))
  /\ comparison_buffer (condition a) = 0%Q
  /\ (forall v t : Q,
        value (condition a) = TFloat t ->
        (operator (condition a) = "eq" ->
         met_iff (condition_met (condition a) (PFloat v)) (v == t)%Q)
        /\ (operator (condition a) = "neq" ->
            met_iff (condition_met (condition a) (PFloat v)) (~ v == t)%Q)).
Proof.
  intros st Hin. subst st.
  pose proof (exec_all_well_formed calls name interval time) as Hall.
  rewrite Forall_forall in Hall. apply list_elem_of_In in Hin.
  destruct (Hall a Hin) as [Hbuf Hlast].
  split; [exact Hlast|]. split; [exact Hbuf|].
  intros v t Hval.
  assert (Habs : (Qabs (v - t) <= 0 <-> v == t)%Q).
  { rewrite Qabs_Qle_condition. split.
    - intros [H1 H2]. lra.
    - intros Heq. split; lra. }
  split; intros Hop; unfold condition_met; rewrite Hop, Hval, Hbuf; cbn.
  - eexists. split; [reflexivity|]. rewrite Qle_bool_iff. exact Habs.
  - eexists. split; [reflexivity|]. rewrite Qlt_bool_iff, <- Habs.
    split; [apply Qlt_not_le | apply Qnot_le_lt].
Qed.

Lemma reachable_alerts_are_well_formed_witness :
  exists a : Alert,
    In a (alerts (net (exec_all demo_history (fresh_state "Demo" 1 demo_clock))))
    /\ triggered a = true
    /\ is_Some (last_triggered a).
Proof.
  exists (set_last_triggered 3000000
            (set_triggered true
               (new_alert 0 "Living Room" "temp_1" "temperature" "gt" (TFloat 25)
                          [] None 10))).
  assert (Hin : In (set_last_triggered 3000000
                      (set_triggered true
                         (new_alert 0 "Living Room" "temp_1" "temperature" "gt"
                                    (TFloat 25) [] None 10)))
                   (alerts (net (exec_all demo_history
                                          (fresh_state "Demo" 1 demo_clock))))).
  { vm_compute. left. reflexivity. }
  split; [exact Hin|]. split; [reflexivity|].
  apply (reachable_alerts_are_well_formed demo_history "Demo" 1 demo_clock _ Hin).
  reflexivity.
Defined.

Lemma evaluated_alerts_ids id reading time (l : list Alert) (n : nat) :
  map alert_id (evaluated_alerts id reading time n l) = map alert_id l.
Proof.
  pose proof (evaluated_alerts_config id reading time l n) as Hc.
  apply (f_equal (map (fun c : string * string * AlertCondition * list AlertAction * Z =>
                         fst (fst (fst (fst c)))))) in Hc.
  rewrite !map_map in Hc. exact Hc.
Qed.

Lemma alerts_step_sequential (c : api_call) (l l' : list Alert) :
  alerts_step c l l' ->
  is_delete_alert c = false ->
  map alert_id l = sequential_ids (length l) ->
  map alert_id l' = sequential_ids (length l').
Proof.
  intros [->|[Hnew|[[Hdel _]|(id & reading & time & n & ->)]]] Hc Hids.
  - exact Hids.
  - destruct Hnew as (sname & id & fld & op & val & acts & name & cd & ->).
    rewrite map_app, length_app, Hids. cbn [map length alert_id new_alert].
    unfold sequential_ids. rewrite seq_app, map_app. cbn [seq map].
    do 4 f_equal. lia.
  - congruence.
  - rewrite evaluated_alerts_ids, evaluated_alerts_length. exact Hids.
Qed.

Lemma sequential_ids_NoDup (n : nat) : NoDup (sequential_ids n).
Proof.
  unfold sequential_ids.
  apply (NoDup_fmap_2_strong (fun k : nat => "alert_" +:+ pretty k)).
  - intros x y _ _ Heq. injection Heq as Heq. apply pretty_nat_inj in Heq. exact Heq.
  - apply NoDup_seq.
Qed.

(** X18. As long as no alert is deleted, alert ids are unique: after any
    sequence of calls without [delete_alert] on a fresh network, the alerts
    carry the ids [alert_1], ..., [alert_n] in registration order, with no
    id twice. *)
Theorem alert_ids_unique_without_deletion
    (calls : list api_call) (name : string) (interval : Q) (time : nat -> datetime) :
  forallb (fun c => negb (is_delete_alert c)) calls = true ->
  let l := alerts (net (exec_all calls (fresh_state name interval time))) in
  map alert_id l = sequential_ids (length l)
  /\ NoDup (map alert_id l).
Proof.
  intros Hnodel l.
  assert (Hids : map alert_id l = sequential_ids (length l)).
  { subst l. induction calls as [|c calls IH] using rev_ind.
    - reflexivity.
    - rewrite forallb_app in Hnodel. apply andb_true_iff in Hnodel as [Hcalls Hc].
      cbn in Hc. rewrite andb_true_r in Hc. apply negb_true_iff in Hc.
      rewrite exec_all_snoc.
      eapply alerts_step_sequential; [apply exec_effect | exact Hc | apply IH; exact Hcalls]. }
  split; [exact Hids|]. rewrite Hids. apply sequential_ids_NoDup.
Qed.

Lemma alert_ids_unique_without_deletion_witness :
  map alert_id (alerts (net (exec_all demo_history (fresh_state "Demo" 1 demo_clock))))
  = ["alert_1"; "alert_2"].
Proof.
  destruct (alert_ids_unique_without_deletion demo_history "Demo" 1 demo_clock eq_refl)
    as [Hids _].
  rewrite Hids. vm_compute. reflexivity.
Defined.

(* ===================================================================== *)
(** ** Logger names                                                       *)
(* ===================================================================== *)

(** X19. [get_logger] always asks for a name under the package: the name
    it uses starts with [smartsense] or [__main__], ends with the name it
    was given, and is left as it is when passed through again (so loggers
    obtained from qualified and unqualified module names coincide). *)
Theorem get_logger_name_is_qualified (name : string) :
  (startswith (get_logger_name name) "smartsense" = true
   \/ startswith (get_logger_name name) "__main__" = true)
  /\ (get_logger_name name = name \/ get_logger_name name = "smartsense." +:+ name)
  /\ get_logger_name (get_logger_name name) = get_logger_name name
  /\ get_logger_name ("smartsense." +:+ name) = "smartsense." +:+ name.
Proof.
  assert (Hfix : forall n : string,
             startswith n "smartsense" = true \/ startswith n "__main__" = true ->
             get_logger_name n = n).
  { intros n [H|H]; unfold get_logger_name; rewrite H; cbn [negb andb];
      [reflexivity | rewrite andb_false_r; reflexivity]. }
  assert (Hq : forall n : string,
             startswith ("smartsense." +:+ n) "smartsense" = true).
  { intros n. reflexivity. }
  assert (Hcases : (get_logger_name name = name
                    /\ (startswith name "smartsense" = true
                        \/ startswith name "__main__" = true))
                   \/ get_logger_name name = "smartsense." +:+ name).
  { unfold get_logger_name.
    destruct (startswith name "smartsense") eqn:H1; [left; auto|].
    destruct (startswith name "__main__") eqn:H2; [left; auto|].
    right. reflexivity. }
  split; [|split; [|split]].
  - destruct Hcases as [[-> Hs] | ->]; [exact Hs | left; apply Hq].
  - destruct Hcases as [[-> _] | ->]; auto.
  - destruct Hcases as [[-> Hs] | ->]; apply Hfix; [exact Hs | left; apply Hq].
  - apply Hfix. left. apply Hq.
Qed.

(* ===================================================================== *)
(** ** Virtual sensors                                                    *)
(* ===================================================================== *)

Lemma clamp_within (lo hi x : Q) :
  (lo <= hi)%Q ->
  (lo <= py_max lo (py_min x hi) /\ py_max lo (py_min x hi) <= hi)%Q.
Proof.
  intros Hle. unfold py_max, py_min.
  destruct (Qlt_bool hi x) eqn:H1.
  - destruct (Qlt_bool lo hi) eqn:H2.
    + split; [exact Hle | apply Qle_refl].
    + split; [apply Qle_refl | exact Hle].
  - apply Qlt_bool_false_iff in H1.
    destruct (Qlt_bool lo x) eqn:H2.
    + apply Qlt_bool_iff in H2. split; [apply Qlt_le_weak; exact H2 | exact H1].
    + split; [apply Qle_refl | exact Hle].
Qed.

Lemma clamp_inverted (lo hi x : Q) :
  (hi < lo)%Q -> py_max lo (py_min x hi) = lo.
Proof.
  intros Hlt. unfold py_max, py_min.
  destruct (Qlt_bool hi x) eqn:H1.
  - destruct (Qlt_bool lo hi) eqn:H2; [|reflexivity].
    apply Qlt_bool_iff in H2. lra.
  - apply Qlt_bool_false_iff in H1.
    destruct (Qlt_bool lo x) eqn:H2; [|reflexivity].
    apply Qlt_bool_iff in H2. lra.
Qed.

Lemma make_reading_field (k : sensor_kind) (id : string) (v : Q) (now : datetime)
    (reading : SensorReading) :
  make_reading k id v now = Ok reading ->
  getattr reading (reading_field k) = Some (PFloat v)
  /\ reading_sensor_id reading = id
  /\ timestamp reading = now.
Proof.
  destruct k; cbn [make_reading reading_field].
  - intros [= <-]. repeat split.
  - intros [= <-]. repeat split.
  - unfold validate_humidity.
    destruct (negb (Qle_bool 0 v && Qle_bool v 100)); [discriminate|].
    intros [= <-]. repeat split.
Qed.

(** X20. A virtual sensor never reports a value outside its configured
    range: whatever its previous value and the random draws, after a read
    the sensor's value lies in [[min_value, max_value]] when
    [min_value <= max_value], and is [min_value] when the range is
    inverted; a reading that is returned carries exactly that value in the
    field of the sensor's kind, the sensor's id and the current time, and
    becomes the sensor's last reading. *)
Theorem virtual_read_stays_in_range
    (s : VirtualSensor) (noise drift : Q) (now : datetime) (t : Q) :
  let s' := fst (virtual_read s noise drift now t) in
  ((min_value s <= max_value s)%Q ->
   (min_value s <= current_value s' /\ current_value s' <= max_value s)%Q)
  /\ ((max_value s < min_value s)%Q -> current_value s' = min_value s)
  /\ initialized s' = true
  /\ (forall reading : SensorReading,
        snd (virtual_read s noise drift now t) = Ok (Some reading) ->
        getattr reading (reading_field (kind s)) = Some (PFloat (current_value s'))
        /\ reading_sensor_id reading = sensor_id (base s)
        /\ timestamp reading = now
        /\ last_reading s' = Some reading
        /\ last_read_time (base s') = Some t).
Proof.
  intros s'. subst s'. unfold virtual_read.
  set (clamped := py_max (min_value s)
                    (py_min (current_value s + (noise + drift)) (max_value s))).
  destruct (make_reading (kind s) (sensor_id (base s)) clamped now) as [r|e] eqn:Hr;
    cbn [fst snd current_value initialized last_reading base].
  - split; [intros Hle; apply clamp_within; exact Hle|].
    split; [intros Hlt; apply clamp_inverted; exact Hlt|].
    split; [reflexivity|].
    intros reading [= <-].
    destruct (make_reading_field _ _ _ _ _ Hr) as (Hf & Hid & Hts).
    repeat split; assumption.
  - split; [intros Hle; apply clamp_within; exact Hle|].
    split; [intros Hlt; apply clamp_inverted; exact Hlt|].
    split; [reflexivity|].
    intros reading Hok. discriminate Hok.
Qed.

Lemma virtual_read_stays_in_range_witness :
  let s' := fst (virtual_read (demo_humidity 30 60) 50 (1 # 10) 0 0) in
  (30 <= current_value s' /\ current_value s' <= 60)%Q.
Proof.
  destruct (virtual_read_stays_in_range (demo_humidity 30 60) 50 (1 # 10) 0 0)
    as [Hrange _].
  apply Hrange. vm_compute. discriminate.
Defined.






Lemma transition_applicable id reading (a : Alert) (met : bool) (now : datetime) :
  applicable id reading (transition a met now) = applicable id reading a.
Proof.
  pose proof (transition_config a met now) as Hc. unfold alert_config in Hc.
  injection Hc as _ _ Hcond _ _. unfold applicable. rewrite Hcond. reflexivity.
Qed.

Lemma evaluated_alerts_triggered_met id reading time (l : list Alert) :
  forall n : nat,
    first_error id reading l = None ->
    Forall (fun a' => forall v : pyval,
                applicable id reading a' = Some v ->
                triggered a' = true ->
                condition_met (condition a') v = Ok true)
           (evaluated_alerts id reading time n l).
Proof.
  induction l as [|a l IH]; intros n Hok; [constructor|].
  cbn [evaluated_alerts first_error] in *.
  destruct (applicable id reading a) as [v|] eqn:Happ.
  - destruct (condition_met (condition a) v) as [met|e] eqn:Hm; [|discriminate].
    constructor; [|apply IH; exact Hok].
    intros v' Happ' Htr. rewrite transition_applicable, Happ in Happ'.
    injection Happ' as <-.
    rewrite transition_triggered in Htr. apply andb_true_iff in Htr as [-> _].
    pose proof (transition_config a true (time n)) as Hc. unfold alert_config in Hc.
    injection Hc as _ _ Hcond _ _. rewrite Hcond. exact Hm.
  - constructor; [|apply IH; exact Hok].
    intros v' Happ'. congruence.
Qed.

(** X23. The flag follows the level: after a pass of [_process_alerts] that
    returns normally, every alert on the reading's sensor whose field the
    reading has and that is triggered has its condition met by this very
    reading; no alert is left triggered on a reading that does not meet its
    condition. (The converse fails: a met condition can be held back by the
    cooldown.) *)
Theorem triggered_only_when_met
    (id : string) (reading : SensorReading) (st st' : State) :
  process_alerts id reading st = (st', Ok tt) ->
  forall (a' : Alert) (v : pyval),
    In a' (alerts (net st')) ->
    applicable id reading a' = Some v ->
    triggered a' = true ->
    condition_met (condition a') v = Ok true.
Proof.
  intros Hrun a' v Hin Happ Htr.
  destruct (process_alerts_pass id reading st) as (st1 & Hrun1 & Hal).
  rewrite Hrun in Hrun1. injection Hrun1 as <- Hres.
  assert (Hok : first_error id reading (alerts (net st)) = None).
  { destruct (first_error id reading (alerts (net st))); [discriminate | reflexivity]. }
  pose proof (evaluated_alerts_triggered_met id reading (clock st) (alerts (net st))
                (ticks st) Hok) as Hall.
  rewrite <- Hal, Forall_forall in Hall.
  apply (Hall a'); [apply list_elem_of_In; exact Hin | exact Happ | exact Htr].
Qed.

Lemma triggered_only_when_met_witness :
  condition_met (condition (demo_alert true (Some 3000000))) (PFloat 26) = Ok true.
Proof.
  apply (triggered_only_when_met
           "temp_1" (demo_reading 26 0)
           (demo_state [] [demo_alert false None])
           (fst (process_alerts "temp_1" (demo_reading 26 0)
                                (demo_state [] [demo_alert false None])))).
  - vm_compute. reflexivity.
  - vm_compute. left. reflexivity.
  - vm_compute. reflexivity.
  - reflexivity.
Defined.
